(** * Invoice composition: a shallow embedding of [main.py]

    The program turns a client, a law firm and a list of timed entries
    into the ordered list of flowables of a legal invoice, and hands it
    to the page engine together with a footer callback.

    Conventions of the embedding.
    - Python [float]s are binary64 values (module [F]): every operation
      rounds its exact result to the nearest representable value, ties
      to even, with signed zeros, infinities and NaN.  [//] and [%]
      follow CPython's [float_floor_div] and [float_rem]; [sum] adds
      from zero, left to right (CPython 3.11); numbers handed to the
      page engine are kept by value, an [int] as the float of the same
      value.
    - Python [str]s are byte strings (UTF-8), [int]s are [Z].
    - The writer object is an explicit state; its methods live in a
      state-and-exception monad [M].  An exception ends the run of
      [__main__]; the state it leaves behind is not kept.
    - The page engine is a parameter of the development: the markup
      parser behind [Paragraph(text, style)], the message of the error
      of an empty [Table], [Paragraph.wrap] and the [str] of a float.
      What [SimpleDocTemplate.build] does with the story, laying it out
      and writing the file, is outside the embedding: [build] is
      followed up to the call and after a call that returns.
    - [strftime] is the one of the C library of Linux. *)

From Stdlib Require Import ZArith QArith Qround Qabs Qpower Qreduction Lqa Lia.
From Stdlib Require Import SpecFloat Ascii.
From stdpp Require Import base gmap strings list pretty.

Open Scope Z_scope.

(** ** Exceptions and results *)

Inductive exn :=
| ValueError (msg : string)
| KeyError (key : string)
| ValidationError (field : string).

Inductive result (A : Type) :=
| Ok (a : A)
| Raise (e : exn).
Arguments Ok {A} a.
Arguments Raise {A} e.

(** ** Decimal formatting *)

(** Rounding to the nearest integer, ties to even. *)
Definition round_half_even (x : Q) : Z :=
  let f := Qfloor x in
  match (x - inject_Z f ?= 1 # 2)%Q with
  | Lt => f
  | Gt => f + 1
  | Eq => if Z.even f then f else f + 1
  end.

(** [s.zfill(width)] for a string of digits. *)
Definition zfill (width : nat) (s : string) : string :=
  String.concat "" (replicate (width - String.length s) "0") +:+ s.

(** ** Floats *)

Module F.

(** A binary64 value: a finite number ([Finite 0] is [+0.0]), [-0.0], an
    infinity or NaN.  The operations below produce finite values in
    lowest terms. *)
Inductive t :=
| Finite (q : Q)
| NegZero
| Inf (negative : bool)
| NaN.

(** [floor(log2 q)] for [0 < q]. *)
Definition ilog2 (q : Q) : Z :=
  let d := Z.log2 (Qnum q) - Z.log2 (Zpos (Qden q)) in
  if Qle_bool (2 ^ d) q then d else d - 1.

Definition signed_zero (negative : bool) : t :=
  if negative then NegZero else Finite 0.

(** The exponent of the last place of a binary64 near [q]: 53 bits of
    precision, subnormals from [2^-1074]. *)
Definition ulp_exponent (q : Q) : Z := Z.max (ilog2 (Qabs q) - 52) (-1074).

(** Round to nearest, ties to even; what reaches [2^1024] overflows. *)
Definition round (q : Q) : t :=
  if Qeq_bool q 0 then Finite 0
  else
    let negative := negb (Qle_bool 0 q) in
    let eps := ulp_exponent q in
    let m := round_half_even (Qabs q / 2 ^ eps) in
    if m =? 0 then signed_zero negative
    else if Qle_bool (2 ^ 1024) (inject_Z m * 2 ^ eps) then Inf negative
    else Finite (Qred (if negative then - (inject_Z m * 2 ^ eps)
                       else inject_Z m * 2 ^ eps)).

(** A literal, and an [int] used where a float is expected. *)
Definition lit (q : Q) : t := round q.
Definition of_int (z : Z) : t := round (inject_Z z).

Definition is_zero (x : t) : bool :=
  match x with
  | Finite q => Qeq_bool q 0
  | NegZero => true
  | _ => false
  end.

(** The sign bit. *)
Definition signbit (x : t) : bool :=
  match x with
  | Finite q => negb (Qle_bool 0 q)
  | NegZero => true
  | Inf negative => negative
  | NaN => false
  end.

(** The number a finite value stands for. *)
Definition value (x : t) : Q :=
  match x with
  | Finite q => q
  | _ => 0%Q
  end.

Definition is_finite (x : t) : bool :=
  match x with
  | Finite _ | NegZero => true
  | _ => false
  end.

Definition opp (x : t) : t :=
  match x with
  | Finite q => if Qeq_bool q 0 then NegZero else Finite (Qred (- q))
  | NegZero => Finite 0
  | Inf negative => Inf (negb negative)
  | NaN => NaN
  end.

Definition add (x y : t) : t :=
  match x, y with
  | NaN, _ | _, NaN => NaN
  | Inf a, Inf b => if Bool.eqb a b then Inf a else NaN
  | Inf a, _ => Inf a
  | _, Inf b => Inf b
  | NegZero, NegZero => NegZero
  | NegZero, Finite q => Finite q
  | Finite p, NegZero => Finite p
  | Finite p, Finite q => round (p + q)
  end.

Definition sub (x y : t) : t := add x (opp y).

Definition mul (x y : t) : t :=
  match x, y with
  | NaN, _ | _, NaN => NaN
  | Inf a, Inf b => Inf (xorb a b)
  | Inf a, _ => if is_zero y then NaN else Inf (xorb a (signbit y))
  | _, Inf b => if is_zero x then NaN else Inf (xorb (signbit x) b)
  | _, _ =>
      if is_zero x || is_zero y then signed_zero (xorb (signbit x) (signbit y))
      else round (value x * value y)
  end.

(** [x / n] for a positive [int] literal [n] (below [2^53]). *)
Definition div_int (x : t) (n : positive) : t :=
  match x with
  | Finite q => if Qeq_bool q 0 then Finite 0 else round (q / inject_Z (Zpos n))
  | _ => x
  end.

(** [x < y], false when either is NaN. *)
Definition ltb (x y : t) : bool :=
  match x, y with
  | NaN, _ | _, NaN => false
  | Inf a, Inf b => a && negb b
  | Inf a, _ => a
  | _, Inf b => negb b
  | _, _ => negb (Qle_bool (value y) (value x))
  end.

(** [x <= y], false when either is NaN. *)
Definition leb (x y : t) : bool :=
  match x, y with
  | NaN, _ | _, NaN => false
  | Inf a, Inf b => a || negb b
  | Inf a, _ => a
  | _, Inf b => negb b
  | _, _ => Qle_bool (value x) (value y)
  end.

(** C's [floor]. *)
Definition floor (x : t) : t :=
  match x with
  | Finite q => Finite (inject_Z (Qfloor q))
  | _ => x
  end.

(** C's [fmod(x, n)] for a positive [int] literal [n]: the exact
    remainder of the division truncated towards zero, with the sign of
    [x]. *)
Definition fmod_int (x : t) (n : positive) : t :=
  match x with
  | Finite q =>
      let negative := negb (Qle_bool 0 q) in
      let quotient :=
        if negative then - Qfloor (- q / inject_Z (Zpos n))
        else Qfloor (q / inject_Z (Zpos n)) in
      let r := (q - inject_Z (Zpos n) * inject_Z quotient)%Q in
      if Qeq_bool r 0 then signed_zero negative else Finite (Qred r)
  | NegZero => NegZero
  | _ => NaN
  end.

(** CPython's [_float_div_mod(vx, wx, &floordiv, &mod)] for a positive
    [int] literal [wx]. *)
Definition divmod_int (vx : t) (wx : positive) : t * t :=
  let md := fmod_int vx wx in
  let dv := div_int (sub vx md) wx in
  let '(md, dv) :=
    if negb (is_zero md) then
      if ltb md (Finite 0)
      then (add md (of_int (Zpos wx)), sub dv (of_int 1))
      else (md, dv)
    else (Finite 0, dv) in
  let floordiv :=
    if negb (is_zero dv) then
      let floordiv := floor dv in
      if ltb (lit 0.5) (sub dv floordiv)
      then add floordiv (of_int 1) else floordiv
    else signed_zero (signbit (div_int vx wx)) in
  (floordiv, md).

(** [vx // wx] *)
Definition floordiv_int (vx : t) (wx : positive) : t :=
  fst (divmod_int vx wx).

(** [vx % wx] (CPython's [float_rem]). *)
Definition mod_int (vx : t) (wx : positive) : t :=
  let md := fmod_int vx wx in
  if negb (is_zero md) then
    if ltb md (Finite 0) then add md (of_int (Zpos wx)) else md
  else Finite 0.

(** [sum(...)] of floats: from [0], left to right. *)
Definition sum (l : list t) : t := fold_left add l (Finite 0).

(** [format(x, "0<width>.<prec>f")]: the exact value rounded to [prec]
    decimals, ties to even, zero padded to [width] after the sign. *)
Definition format_f (width prec : nat) (x : t) : string :=
  let scale := 10 ^ Z.of_nat prec in
  let digits (q : Q) :=
    let n := round_half_even (Qabs q * inject_Z scale) in
    match prec with
    | O => pretty n
    | _ => pretty (n / scale) +:+ "." +:+ zfill prec (pretty (n mod scale))
    end in
  let sign := if signbit x then "-" else "" in
  let body :=
    match x with
    | Finite q => digits q
    | NegZero => digits 0%Q
    | Inf _ => "inf"
    | NaN => "nan"
    end in
  sign +:+ zfill (width - String.length sign) body.

(** The same value as the Standard Library writes it. *)
Definition to_spec (x : t) : spec_float :=
  match x with
  | Finite q =>
      if Qeq_bool q 0 then S754_zero false
      else
        let eps := ulp_exponent q in
        S754_finite (negb (Qle_bool 0 q))
          (Z.to_pos (Qfloor (Qabs q / 2 ^ eps))) eps
  | NegZero => S754_zero true
  | Inf negative => S754_infinity negative
  | NaN => S754_nan
  end.

End F.

(** ** The [datetime] module *)

Module timedelta.
Record t := { days : Z; seconds : Z; microseconds : Z }.

(** The normal form every [timedelta] object is in. *)
Definition normalized (d : t) : bool :=
  (-999999999 <=? days d) && (days d <=? 999999999)
  && (0 <=? seconds d) && (seconds d <? 86400)
  && (0 <=? microseconds d) && (microseconds d <? 1000000).

(** [timedelta(hours=h, minutes=m, seconds=s)] for integers within the
    range of the type: the constructor normalizes. *)
Definition make (h m s : Z) : t :=
  let total := h * 3600 + m * 60 + s in
  {| days := total / 86400; seconds := total mod 86400;
     microseconds := 0 |}.

Definition total_microseconds (d : t) : Z :=
  (days d * 86400 + seconds d) * 10 ^ 6 + microseconds d.

(** [total_seconds()]: the true division of two [int]s, rounded once. *)
Definition total_seconds (d : t) : F.t :=
  F.round (total_microseconds d # 1000000).
End timedelta.

Module date.
Record t := { year : Z; month : Z; day : Z }.

(** [strftime('%d/%m/%Y')] with the C library of Linux: day and month
    on two digits, the year as it is. *)
Definition strftime_dmY (d : t) : string :=
  zfill 2 (pretty (day d)) +:+ "/" +:+ zfill 2 (pretty (month d))
  +:+ "/" +:+ pretty (year d).
End date.

Module datetime.
Record t := {
  year : Z; month : Z; day : Z;
  hour : Z; minute : Z; second : Z; microsecond : Z }.

Definition valid_month (d : t) : Prop := 1 <= month d <= 12.
End datetime.

(** ** Enumerations and tables *)

Inductive FontStyle := BASE | BOLD | ITALIC | BOLD_ITALIC.

Inductive Alignment := LEFT | RIGHT | CENTER | JUSTIFY.

Definition FontStyle_value (s : FontStyle) : string :=
  match s with
  | BASE => "base"
  | BOLD => "bold"
  | ITALIC => "italic"
  | BOLD_ITALIC => "bold_italic"
  end.

Definition Alignment_value (a : Alignment) : string :=
  match a with
  | LEFT => "left"
  | RIGHT => "right"
  | CENTER => "center"
  | JUSTIFY => "justify"
  end.

Definition MONTH_TO_FRENCH : gmap Z string :=
  list_to_map
    [ (1, "janvier"); (2, "février"); (3, "mars"); (4, "avril");
      (5, "mai"); (6, "juin"); (7, "juillet"); (8, "août");
      (9, "septembre"); (10, "octobre"); (11, "novembre");
      (12, "décembre") ].

(** A value a caller can pass where a [FontStyle] is expected: Python
    checks nothing at the call. *)
Inductive pyobj :=
| ObjFontStyle (s : FontStyle)
| ObjAlignment (a : Alignment)
| ObjStr (s : string)
| ObjNone.

Definition pyobj_str (o : pyobj) : string :=
  match o with
  | ObjFontStyle BASE => "FontStyle.BASE"
  | ObjFontStyle BOLD => "FontStyle.BOLD"
  | ObjFontStyle ITALIC => "FontStyle.ITALIC"
  | ObjFontStyle BOLD_ITALIC => "FontStyle.BOLD_ITALIC"
  | ObjAlignment LEFT => "Alignment.LEFT"
  | ObjAlignment RIGHT => "Alignment.RIGHT"
  | ObjAlignment CENTER => "Alignment.CENTER"
  | ObjAlignment JUSTIFY => "Alignment.JUSTIFY"
  | ObjStr s => s
  | ObjNone => "None"
  end.

(** ** The data model (pydantic models)

    The constructors are given arguments of the declared field types, one
    per field. *)

Module Client.
Record t := {
  name : string; gender : string; city : string;
  zip_code : string; adress : string }.

(** [Client(name=..., gender=..., ...)]: on such arguments the only
    constraint is [gender: Literal["M", "F"]]. *)
Definition new (name gender city zip_code adress : string) : result t :=
  if bool_decide (gender = "M" ∨ gender = "F")
  then Ok {| name := name; gender := gender; city := city;
             zip_code := zip_code; adress := adress |}
  else Raise (ValidationError "gender").
End Client.

Module LawFirm.
Record t := {
  principal_lawyer : string; collaborators : list string;
  zip_code : string; city : string; adress : string; phone : string;
  toque_adress : string; mail : string; website : string;
  vat_number : string; siret_number : string }.
End LawFirm.

Module Time.
Record t := {
  description : string; duration : timedelta.t; date : date.t }.

(** [Time(description=..., duration=..., date=...)]: no constraint on
    such arguments. *)
Definition new (description : string) (duration : timedelta.t)
    (date : date.t) : result t :=
  Ok {| description := description; duration := duration; date := date |}.
End Time.

Module Fees.
Record t := { times : list Time.t; price : F.t }.

(** [Fees(times=..., price=...)]: no constraint on such arguments. *)
Definition new (times : list Time.t) (price : F.t) : result t :=
  Ok {| times := times; price := price |}.
End Fees.

(** ** The part of reportlab the program uses *)

Definition TA_LEFT : Z := 0.
Definition TA_CENTER : Z := 1.
Definition TA_RIGHT : Z := 2.
Definition TA_JUSTIFY : Z := 4.

Definition inch : F.t := F.lit 72.0.
Definition letter : F.t * F.t :=
  (F.mul (F.lit 8.5) inch, F.mul (F.of_int 11) inch).

Inductive Color := black | lightgrey.

(** [pdfmetrics.registerFont(TTFont(name, file))], at import time. *)
Definition registered_fonts : list (string * string) :=
  [ ("Yrsa", "fonts/yrsa/Yrsa-Light.ttf");
    ("YrsaBold", "fonts/yrsa/Yrsa-SemiBold.ttf");
    ("YrsaItalic", "fonts/yrsa/Yrsa-LightItalic.ttf");
    ("YrsaBoldItalic", "fonts/yrsa/Yrsa-SemiBoldItalic.ttf") ].

(** A style; its size is an [int] literal of the program, stored and
    never computed with. *)
Record ParagraphStyle := {
  style_name : string;
  parent : option string;
  alignment : Z;
  fontName : string;
  fontSize : Q }.

(** [getSampleStyleSheet()], restricted to the entry the program reads. *)
Definition Normal : ParagraphStyle :=
  {| style_name := "Normal"; parent := None; alignment := TA_LEFT;
     fontName := "Helvetica"; fontSize := 10 |}.

Definition getSampleStyleSheet : gmap string ParagraphStyle :=
  {[ "Normal" := Normal ]}.

(** A paragraph object: the text it was made of and its style. *)
Record Paragraph_t := Paragraph { text : string; pstyle : ParagraphStyle }.

(** [Paragraph(text, style)]: the constructor parses the markup of the
    text and raises [ValueError] when the parser rejects it.
    [markup_error] is the parser: [None] when the text is accepted, the
    message of the error otherwise. *)
Definition new_Paragraph
    (markup_error : string -> ParagraphStyle -> option string)
    (text : string) (style : ParagraphStyle) : result Paragraph_t :=
  match markup_error text style with
  | None => Ok (Paragraph text style)
  | Some msg => Raise (ValueError msg)
  end.

Definition cell : Type := Z * Z.

Inductive TableCmd :=
| BOX (start stop : cell) (weight : Z) (c : Color)
| VALIGN (start stop : cell) (v : string)
| TOPPADDING (start stop : cell) (v : Z)
| BOTTOMPADDING (start stop : cell) (v : Z)
| BACKGROUND (start stop : cell) (c : Color).

Inductive Flowable :=
| Para (p : Paragraph_t)
| Spacer (w h : F.t)
| Table (data : list (list Paragraph_t)) (colWidths : list F.t)
    (rowHeights : option (list F.t)) (ts : list TableCmd).
Coercion Para : Paragraph_t >-> Flowable.

(** [Table(data, colWidths=..., rowHeights=...)] followed by
    [setStyle]: a table without a row or without a column is refused
    with [ValueError]; [empty_table_message] is the message, which names
    the object.  (At every call of the program the widths and heights
    given have the lengths of the data.) *)
Definition new_Table (empty_table_message : string)
    (data : list (list Paragraph_t)) (colWidths : list F.t)
    (rowHeights : option (list F.t)) (ts : list TableCmd)
    : result Flowable :=
  let nrows := length data in
  let ncols :=
    match data with
    | [] => length colWidths
    | _ :: _ => foldr Nat.max 0%nat (map length data)
    end in
  if (nrows =? 0)%nat || (ncols =? 0)%nat
  then Raise (ValueError empty_table_message)
  else Ok (Table data colWidths rowHeights ts).

(** The page geometry a [SimpleDocTemplate] exposes to a page callback. *)
Record DocTemplate := {
  filename : string;
  pagesize : F.t * F.t;
  leftMargin : F.t; rightMargin : F.t; topMargin : F.t; bottomMargin : F.t;
  width : F.t; height : F.t }.

(** [SimpleDocTemplate(path, pagesize=...)]: one inch of margin on every
    side, the frame is what is left. *)
Definition SimpleDocTemplate (path : string) (size : F.t * F.t)
    : DocTemplate :=
  {| filename := path; pagesize := size;
     leftMargin := inch; rightMargin := inch;
     topMargin := inch; bottomMargin := inch;
     width := F.sub (F.sub (fst size) inch) inch;
     height := F.sub (F.sub (snd size) inch) inch |}.

(** What a page callback does to the canvas. *)
Inductive CanvasOp :=
| saveState
| drawOn (p : Paragraph_t) (x y : F.t)
| restoreState.

Definition Canvas : Type := list CanvasOp.

(** ** The invoice writer *)

Module PDFInvoiceWriter.

Definition font_base : string := "Yrsa".
Definition font_bold : string := "YrsaBold".
Definition font_italic : string := "YrsaItalic".
Definition font_bold_italic : string := "YrsaBoldItalic".

(** The attributes of [self]. *)
Record t := {
  output_path : string;
  client : Client.t;
  lawfirm : LawFirm.t;
  fees : Fees.t;
  doc : DocTemplate;
  styles : gmap string ParagraphStyle;
  contents : list Flowable }.

Definition __init__ (output_path : string) (client : Client.t)
    (lawfirm : LawFirm.t) (fees : Fees.t) : t :=
  {| output_path := output_path; client := client; lawfirm := lawfirm;
     fees := fees;
     doc := SimpleDocTemplate output_path letter;
     styles := getSampleStyleSheet;
     contents := [] |}.

Definition set_contents (self : t) (c : list Flowable) : t :=
  {| output_path := output_path self; client := client self;
     lawfirm := lawfirm self; fees := fees self; doc := doc self;
     styles := styles self; contents := c |}.

(** *** Methods: state of [self] and exceptions *)

Definition M (A : Type) : Type := t -> result (A * t).

#[global] Instance M_ret : MRet M := fun A a self => Ok (a, self).

#[global] Instance M_bind : MBind M := fun A B k m self =>
  match m self with
  | Ok (a, self') => k a self'
  | Raise e => Raise e
  end.

Definition get_self : M t := fun self => Ok (self, self).

Definition raise {A : Type} (e : exn) : M A := fun _ => Raise e.

(** A call that does not touch [self]. *)
Definition lift {A : Type} (r : result A) : M A :=
  fun self =>
    match r with
    | Ok a => Ok (a, self)
    | Raise e => Raise e
    end.

(** [self.contents.append(f)] *)
Definition contents_append (f : Flowable) : M unit :=
  fun self => Ok (tt, set_contents self (contents self ++ [f])).

(** [for x in l: body(x)] *)
Fixpoint for_each {A : Type} (l : list A) (body : A -> M unit) : M unit :=
  match l with
  | [] => mret tt
  | x :: l' => body x;; for_each l' body
  end.

(** A loop that grows a local list, as [data.append(...)] does. *)
Fixpoint for_collect {A B : Type} (l : list A) (data : list B)
    (body : A -> M B) : M (list B) :=
  match l with
  | [] => mret data
  | x :: l' => row ← body x; for_collect l' (data ++ [row]) body
  end.

Definition font_from_style (style : pyobj) : M string :=
  match style with
  | ObjFontStyle BASE => mret font_base
  | ObjFontStyle BOLD => mret font_bold
  | ObjFontStyle ITALIC => mret font_italic
  | ObjFontStyle BOLD_ITALIC => mret font_bold_italic
  | _ => raise (ValueError ("Invalid font style: " +:+ pyobj_str style))
  end.

(** [ParagraphStyle(name, parent=p)]: the attributes of the parent under
    a new name. *)
Definition ParagraphStyle_new (name : string) (p : ParagraphStyle)
    : ParagraphStyle :=
  {| style_name := name; parent := Some (style_name p);
     alignment := alignment p; fontName := fontName p;
     fontSize := fontSize p |}.

Definition set_alignment (s : ParagraphStyle) (a : Z) : ParagraphStyle :=
  {| style_name := style_name s; parent := parent s; alignment := a;
     fontName := fontName s; fontSize := fontSize s |}.

Definition set_fontName (s : ParagraphStyle) (f : string) : ParagraphStyle :=
  {| style_name := style_name s; parent := parent s;
     alignment := alignment s; fontName := f; fontSize := fontSize s |}.

Definition set_fontSize (s : ParagraphStyle) (z : Q) : ParagraphStyle :=
  {| style_name := style_name s; parent := parent s;
     alignment := alignment s; fontName := fontName s; fontSize := z |}.

(** Defaults of the source: [alignment=LEFT], [font_style=BASE],
    [font_size=12]; the call sites below spell them out. *)
Definition style (alignment : Alignment) (font_style : FontStyle)
    (font_size : Q) : M ParagraphStyle :=
  let style_name :=
    Alignment_value alignment +:+ "_" +:+ FontStyle_value font_style in
  self ← get_self;
  match styles self !! "Normal" with
  | None => raise (KeyError "Normal")
  | Some normal =>
      let style := ParagraphStyle_new style_name normal in
      let style :=
        match alignment with
        | LEFT => set_alignment style TA_LEFT
        | RIGHT => set_alignment style TA_RIGHT
        | CENTER => set_alignment style TA_CENTER
        | JUSTIFY => set_alignment style TA_JUSTIFY
        end in
      font ← font_from_style (ObjFontStyle font_style);
      let style := set_fontName style font in
      let style := set_fontSize style font_size in
      mret style
  end.

(** Default of the source: [base_height=12]. *)
Definition spacer (height base_height : F.t) : M unit :=
  contents_append (Spacer (F.of_int 1) (F.mul base_height height)).

(** What [build] hands to the page engine ([self.doc.build(...)]), what
    the page callbacks draw, page after page, and what is printed once
    the engine has returned. *)
Record Built := {
  story : list Flowable;
  onFirstPage : Canvas -> DocTemplate -> M Canvas;
  onLaterPages : Canvas -> DocTemplate -> M Canvas;
  pages : list Canvas;
  stdout : string }.

Section Engine.

(** The markup parser behind [Paragraph(text, style)]. *)
Variable markup_error : string -> ParagraphStyle -> option string.

(** The message of the error of an empty [Table]. *)
Variable empty_table_message : string.

(** [p.wrap(availWidth, availHeight)]: the size the page engine gives
    a paragraph. *)
Variable wrap : Paragraph_t -> F.t -> F.t -> F.t * F.t.

(** [str(x)] of a float. *)
Variable float_repr : F.t -> string.

(** The pages the page engine needs for a story after the first one. *)
Variable later_pages : DocTemplate -> list Flowable -> nat.

(** The error the page engine ends with, if any, when the callbacks have
    not failed: a flowable that fits no frame, a file that cannot be
    written. *)
Variable engine_error : DocTemplate -> list Flowable -> option exn.

Definition paragraph (text : string) (style : ParagraphStyle)
    : M Paragraph_t :=
  lift (new_Paragraph markup_error text style).

Definition table (data : list (list Paragraph_t)) (colWidths : list F.t)
    (rowHeights : option (list F.t)) (ts : list TableCmd) : M Flowable :=
  lift (new_Table empty_table_message data colWidths rowHeights ts).

Definition lawyer_title (name : string) : M unit :=
  s ← style CENTER BOLD 16;
  p ← paragraph name s;
  contents_append (Para p);;
  spacer (F.lit 0.3) (F.of_int 12);;
  s ← style CENTER BASE 16;
  p ← paragraph "Avocate à la Cour" s;
  contents_append (Para p).

Definition collaborator_title (names : list string) : M unit :=
  s ← style LEFT ITALIC 12;
  p ← paragraph "En collaboration avec :" s;
  contents_append (Para p);;
  for_each names (fun name =>
    s ← style LEFT BASE 12;
    p ← paragraph name s;
    contents_append (Para p));;
  let caption :=
    "Avocate" +:+ (if (1 <? Z.of_nat (length names)) then "s" else "")
    +:+ " à la Cour" in
  s ← style LEFT BASE 12;
  p ← paragraph caption s;
  contents_append (Para p).

Definition client_address (client : Client.t) : M unit :=
  style ← style RIGHT BOLD 12;
  let title :=
    if bool_decide (Client.gender client = "M")
    then "Monsieur" else "Madame" in
  p ← paragraph (title +:+ " " +:+ Client.name client) style;
  contents_append (Para p);;
  p ← paragraph (Client.adress client) style;
  contents_append (Para p);;
  p ← paragraph (Client.zip_code client +:+ " " +:+ Client.city client)
        style;
  contents_append (Para p).

Definition invoice_number_rectangle (number : string) : M unit :=
  let text := "FACTURE N°" +:+ number in
  s ← style CENTER BOLD 12;
  p ← paragraph text s;
  let available_width := F.sub (fst letter) (F.mul (F.of_int 2) inch) in
  let data := [[p]] in
  let ts := [ BOX (0, 0) (-1, -1) 1 black;
              VALIGN (0, 0) (-1, -1) "MIDDLE" ] in
  table ← table data [available_width] (Some [F.mul (F.lit 0.5) inch]) ts;
  contents_append table.

Definition place_and_date (place : string) (date : datetime.t) : M unit :=
  match MONTH_TO_FRENCH !! datetime.month date with
  | None => raise (KeyError (pretty (datetime.month date)))
  | Some month_name =>
      s ← style RIGHT BASE 12;
      p ← paragraph
            (place +:+ ", le " +:+ pretty (datetime.day date) +:+ " "
             +:+ month_name +:+ " " +:+ pretty (datetime.year date))
            s;
      contents_append (Para p)
  end.

Definition list_fee_table : M unit :=
  self ← get_self;
  data ← for_collect (Fees.times (fees self)) [] (fun time =>
    self ← get_self;
    let price :=
      F.mul
        (F.div_int (timedelta.total_seconds (Time.duration time)) 3600)
        (Fees.price (fees self)) in
    let hours :=
      F.floordiv_int (timedelta.total_seconds (Time.duration time)) 3600 in
    let minutes :=
      F.floordiv_int
        (F.mod_int (timedelta.total_seconds (Time.duration time)) 3600)
        60 in
    s0 ← style LEFT BASE 12;
    p0 ← paragraph "" s0;
    s1 ← style LEFT BOLD 12;
    p1 ← paragraph
           (Time.description time +:+ " ("
            +:+ date.strftime_dmY (Time.date time) +:+ ")")
           s1;
    s2 ← style RIGHT BOLD 12;
    p2 ← paragraph
           (F.format_f 2 0 hours +:+ ":" +:+ F.format_f 2 0 minutes) s2;
    s3 ← style RIGHT BOLD 12;
    p3 ← paragraph (F.format_f 0 2 price +:+ " €") s3;
    mret [p0; p1; p2; p3]);
  let available_width := F.sub (fst letter) (F.mul (F.of_int 2) inch) in
  let before_width := F.mul available_width (F.lit 0.15) in
  let description_width := F.mul available_width (F.lit 0.55) in
  let time_width := F.mul available_width (F.lit 0.15) in
  let price_width := F.mul available_width (F.lit 0.15) in
  let ts := [ VALIGN (0, 0) (-1, -1) "MIDDLE";
              TOPPADDING (0, 0) (-1, -1) 0;
              BOTTOMPADDING (0, 0) (-1, -1) 0 ] in
  table ← table data
            [before_width; description_width; time_width; price_width]
            (Some (replicate (length data) (F.of_int 12))) ts;
  contents_append table.

Definition show_total : M unit :=
  self ← get_self;
  let ht_price :=
    F.sum (map (fun time =>
                  F.mul
                    (F.div_int
                       (timedelta.total_seconds (Time.duration time)) 3600)
                    (Fees.price (fees self)))
             (Fees.times (fees self))) in
  let total_time_seconds :=
    F.sum (map (fun time => timedelta.total_seconds (Time.duration time))
             (Fees.times (fees self))) in
  let hours := F.floordiv_int total_time_seconds 3600 in
  let minutes := F.floordiv_int (F.mod_int total_time_seconds 3600) 60 in
  let vat := F.mul ht_price (F.lit 0.20) in
  let ttc_price := F.add ht_price vat in
  label_style ← style LEFT BOLD 12;
  value_style ← style RIGHT BOLD 12;
  empty_style ← style LEFT BASE 12;
  e0 ← paragraph "" empty_style;
  duration ← paragraph
               ("<u>Soit un total de " +:+ F.format_f 2 0 hours +:+ "h"
                +:+ F.format_f 2 0 minutes +:+ "</u>")
               label_style;
  blank ← paragraph "" value_style;
  e1 ← paragraph "" empty_style;
  l1 ← paragraph "Honoraires H.T." label_style;
  v1 ← paragraph (F.format_f 0 2 ht_price +:+ " €") value_style;
  e2 ← paragraph "" empty_style;
  l2 ← paragraph "TVA 20%" label_style;
  v2 ← paragraph (F.format_f 0 2 vat +:+ " €") value_style;
  e3 ← paragraph "" empty_style;
  l3 ← paragraph "TOTAL T.T.C. DU" label_style;
  v3 ← paragraph (F.format_f 0 2 ttc_price +:+ " €") value_style;
  let data :=
    [ [e0; duration; blank]; [e1; l1; v1]; [e2; l2; v2]; [e3; l3; v3] ] in
  let available_width := F.sub (fst letter) (F.mul (F.of_int 2) inch) in
  let col0_width := F.mul available_width (F.lit 0.10) in
  let remaining_width := F.mul available_width (F.lit 0.90) in
  let col1_width := F.mul remaining_width (F.lit 0.70) in
  let col2_width := F.mul remaining_width (F.lit 0.30) in
  let ts := [ VALIGN (0, 0) (-1, -1) "MIDDLE";
              BACKGROUND (0, -1) (2, -1) lightgrey ] in
  total_table ← table data [col0_width; col1_width; col2_width] None ts;
  contents_append total_table.

Definition final : M unit :=
  s ← style LEFT ITALIC 12;
  p ← paragraph "TVA Applicable -" s;
  contents_append (Para p);;
  s ← style LEFT BOLD 12;
  p ← paragraph "En votre aimable règlement" s;
  contents_append (Para p);;
  spacer (F.of_int 1) (F.of_int 12);;
  s ← style LEFT BASE 12;
  p ← paragraph
        "<u>Conformément à nos usages de professions libérales, la présente est payable dès réception</u>"
        s;
  contents_append (Para p).

Definition _draw_footer (canvas : Canvas) (doc : DocTemplate)
    : M Canvas :=
  self ← get_self;
  let canvas := canvas ++ [saveState] in
  footer_style ← style CENTER BASE 9;
  let y_position := F.div_int (bottomMargin doc) 2 in
  let line1_text :=
    LawFirm.adress (lawfirm self) +:+ " "
    +:+ LawFirm.zip_code (lawfirm self) +:+ " "
    +:+ LawFirm.city (lawfirm self) in
  p1 ← paragraph line1_text footer_style;
  let '(w1, h1) := wrap p1 (width doc) (bottomMargin doc) in
  let canvas :=
    canvas
    ++ [drawOn p1 (leftMargin doc)
          (F.add y_position (F.mul h1 (F.lit 1.5)))] in
  let line2_text :=
    "Tel : " +:+ LawFirm.phone (lawfirm self) +:+ " - Mail : "
    +:+ LawFirm.mail (lawfirm self) +:+ " - Site : "
    +:+ LawFirm.website (lawfirm self) in
  p2 ← paragraph line2_text footer_style;
  let '(w2, h2) := wrap p2 (width doc) (bottomMargin doc) in
  let canvas :=
    canvas
    ++ [drawOn p2 (leftMargin doc)
          (F.add y_position (F.mul h1 (F.lit 0.5)))] in
  let line3_text :=
    "TVA Intracommunautaire : " +:+ LawFirm.vat_number (lawfirm self)
    +:+ " - SIRET : " +:+ LawFirm.siret_number (lawfirm self) in
  p3 ← paragraph line3_text footer_style;
  let '(w3, h3) := wrap p3 (width doc) (bottomMargin doc) in
  let canvas :=
    canvas
    ++ [drawOn p3 (leftMargin doc)
          (F.sub y_position (F.mul h2 (F.lit 0.5)))] in
  mret (canvas ++ [restoreState]).

Definition detail_fees : M unit :=
  self ← get_self;
  fees_style ← style LEFT BOLD 12;
  p ← paragraph "<u>Honoraires</u>" fees_style;
  contents_append (Para p);;
  spacer (F.of_int 1) (F.of_int 12);;
  let hourly_price_txt :=
    "Facturation horaire : " +:+ float_repr (Fees.price (fees self))
    +:+ " euros HT de l'heure (selon l'article 2.1 du contrat de mission)" in
  p ← paragraph hourly_price_txt fees_style;
  contents_append (Para p);;
  spacer (F.of_int 1) (F.of_int 12);;
  p ← paragraph "Diligences effectuées :" fees_style;
  contents_append (Para p);;
  spacer (F.of_int 1) (F.of_int 12);;
  list_fee_table;;
  spacer (F.of_int 5) (F.of_int 12);;
  show_total.

(** [self.doc.build(flowables, onFirstPage=..., onLaterPages=...)]: the
    page engine calls the first callback on the first page and the second
    one on every later page, each on the canvas of the page; it takes the
    flowables out of the list it is handed, which is [self.contents]
    itself: when it returns the list is empty. *)
Definition doc_build (flowables : list Flowable)
    (onFirstPage onLaterPages : Canvas -> DocTemplate -> M Canvas)
    : M (list Canvas) :=
  self ← get_self;
  first ← onFirstPage [] (doc self);
  later ← for_collect
            (replicate (later_pages (doc self) flowables) tt) []
            (fun _ => onLaterPages [] (doc self));
  match engine_error (doc self) flowables with
  | Some e => raise e
  | None => fun self => Ok (first :: later, set_contents self [])
  end.

(** [now] is what [datetime.now()] returns. *)
Definition build (now : datetime.t) : M Built :=
  self ← get_self;
  lawyer_title (LawFirm.principal_lawyer (lawfirm self));;
  spacer (F.lit 1.5) (F.of_int 12);;
  (match LawFirm.collaborators (lawfirm self) with
   | [] => mret tt
   | _ :: _ =>
       collaborator_title (LawFirm.collaborators (lawfirm self));;
       spacer (F.of_int 1) (F.of_int 12)
   end);;
  client_address (client self);;
  spacer (F.of_int 3) (F.of_int 12);;
  place_and_date "Paris" now;;
  spacer (F.lit 0.5) (F.of_int 12);;
  invoice_number_rectangle "2025-121";;
  spacer (F.of_int 2) (F.of_int 12);;
  detail_fees;;
  spacer (F.of_int 2) (F.of_int 12);;
  final;;
  self ← get_self;
  let flowables := contents self in
  drawn ← doc_build flowables _draw_footer _draw_footer;
  self ← get_self;
  mret {| story := flowables;
          onFirstPage := _draw_footer;
          onLaterPages := _draw_footer;
          pages := drawn;
          stdout :=
            "ReportLab PDF '" +:+ output_path self
            +:+ "' generated successfully." |}.

End Engine.

End PDFInvoiceWriter.

Module W := PDFInvoiceWriter.

(** ** The run of [__main__] *)

Module Main.

Definition client : Client.t :=
  {| Client.name := "John DOE"; Client.gender := "M";
     Client.city := "Paris"; Client.zip_code := "75000";
     Client.adress := "123 Rue de la Paix" |}.

Definition lawfirm : LawFirm.t :=
  {| LawFirm.principal_lawyer := "Jean-Pierre Machin";
     LawFirm.collaborators := ["Gerard LOULOU"; "Francesca MARTINI"];
     LawFirm.zip_code := "75000"; LawFirm.city := "Paris";
     LawFirm.adress := "123 Rue de la Paix";
     LawFirm.phone := "01.23.45.67.89";
     LawFirm.toque_adress := "Somewhere AX8786";
     LawFirm.mail := "cabinet.avocate@gmail.com";
     LawFirm.website := "cabinet-avocat.fr";
     LawFirm.vat_number := "FR1234567890";
     LawFirm.siret_number := "1234567890" |}.

Definition fees : Fees.t :=
  {| Fees.times :=
       [ {| Time.description := "Courriel Mme : Projet LO";
            Time.duration := timedelta.make 0 11 0;
            Time.date := {| date.year := 2025; date.month := 3;
                            date.day := 24 |} |};
         {| Time.description := "Courriel Mme";
            Time.duration := timedelta.make 0 6 0;
            Time.date := {| date.year := 2025; date.month := 3;
                            date.day := 25 |} |};
         {| Time.description := "Renvoi audience";
            Time.duration := timedelta.make 1 0 0;
            Time.date := {| date.year := 2025; date.month := 4;
                            date.day := 2 |} |};
         {| Time.description := "An element done in 3 hours and 12 minutes";
            Time.duration := timedelta.make 3 12 0;
            Time.date := {| date.year := 2025; date.month := 5;
                            date.day := 3 |} |} ];
     Fees.price := F.of_int 300 |}.

Definition writer : PDFInvoiceWriter.t :=
  PDFInvoiceWriter.__init__ "invoice.pdf" client lawfirm fees.

(** A clock reading and stand-ins for the engine parameters, to run the
    program on: a parser that wants as many [>] as [<], one line of
    10.8 points per paragraph, one decimal for a rate, a story that fits
    one page and an engine that does not fail. *)
Definition now : datetime.t :=
  {| datetime.year := 2025; datetime.month := 6; datetime.day := 1;
     datetime.hour := 9; datetime.minute := 30; datetime.second := 0;
     datetime.microsecond := 0 |}.

Fixpoint count (c : ascii) (s : string) : nat :=
  match s with
  | EmptyString => 0%nat
  | String a s' => ((if Ascii.eqb a c then 1 else 0) + count c s')%nat
  end.

Definition markup_error (text : string) (style : ParagraphStyle)
    : option string :=
  if (count "<"%char text =? count ">"%char text)%nat then None
  else Some "xml parser error".

Definition empty_table_message : string :=
  "Table must have at least a row and column".

Definition wrap (p : Paragraph_t) (w h : F.t) : F.t * F.t :=
  (w, F.lit 10.8).

Definition float_repr (x : F.t) : string := F.format_f 0 1 x.

Definition later_pages (doc : DocTemplate) (story : list Flowable) : nat :=
  0.

Definition engine_error (doc : DocTemplate) (story : list Flowable)
    : option exn :=
  None.

End Main.

(** ** What the methods are expected to produce

    Pure descriptions of the style descriptor and of the blocks, stated
    apart from the writer; the properties below relate the methods to
    them. *)

Module Spec.

Definition font (emphasis : FontStyle) : string :=
  match emphasis with
  | BASE => "Yrsa"
  | BOLD => "YrsaBold"
  | ITALIC => "YrsaItalic"
  | BOLD_ITALIC => "YrsaBoldItalic"
  end.

(** The font resource of each emphasis: regular, bold, italic,
    bold-italic. *)
Definition font_file (emphasis : FontStyle) : string :=
  match emphasis with
  | BASE => "fonts/yrsa/Yrsa-Light.ttf"
  | BOLD => "fonts/yrsa/Yrsa-SemiBold.ttf"
  | ITALIC => "fonts/yrsa/Yrsa-LightItalic.ttf"
  | BOLD_ITALIC => "fonts/yrsa/Yrsa-SemiBoldItalic.ttf"
  end.

Definition ta (a : Alignment) : Z :=
  match a with LEFT => 0 | CENTER => 1 | RIGHT => 2 | JUSTIFY => 4 end.

(** The descriptor of an (alignment, emphasis, size) triple. *)
Definition resolve (a : Alignment) (emphasis : FontStyle) (size : Q)
    : ParagraphStyle :=
  {| style_name := Alignment_value a +:+ "_" +:+ FontStyle_value emphasis;
     parent := Some "Normal";
     alignment := ta a;
     fontName := font emphasis;
     fontSize := size |}.

(** The texts the page engine has to parse. *)
Definition paragraphs_of (f : Flowable) : list Paragraph_t :=
  match f with
  | Para p => [p]
  | Spacer _ _ => []
  | Table data _ _ _ => concat data
  end.

Definition paragraphs (fs : list Flowable) : list Paragraph_t :=
  flat_map paragraphs_of fs.

(** The message of the first paragraph the parser rejects, in the order
    the paragraphs are made. *)
Fixpoint first_error
    (markup_error : string -> ParagraphStyle -> option string)
    (ps : list Paragraph_t) : option string :=
  match ps with
  | [] => None
  | p :: ps' =>
      match markup_error (text p) (pstyle p) with
      | Some msg => Some msg
      | None => first_error markup_error ps'
      end
  end.

(** The parser accepts them all. *)
Definition accepted
    (markup_error : string -> ParagraphStyle -> option string)
    (ps : list Paragraph_t) : Prop :=
  first_error markup_error ps = None.

(** The duration of an entry in seconds, as the program reads it. *)
Definition seconds (time : Time.t) : F.t :=
  timedelta.total_seconds (Time.duration time).

(** The price of an entry, not rounded to cents. *)
Definition line_price (rate : F.t) (time : Time.t) : F.t :=
  F.mul (F.div_int (seconds time) 3600) rate.

(** The cell that shows an amount: two decimals and the currency. *)
Definition amount_cell (x : F.t) : Paragraph_t :=
  Paragraph (F.format_f 0 2 x +:+ " €") (resolve RIGHT BOLD 12).

(** Hours and minutes of a number of seconds, two digits each. *)
Definition hours_text (s : F.t) : string :=
  F.format_f 2 0 (F.floordiv_int s 3600).

Definition minutes_text (s : F.t) : string :=
  F.format_f 2 0 (F.floordiv_int (F.mod_int s 3600) 60).

(** One row of the itemized table. *)
Definition fee_row (rate : F.t) (time : Time.t) : list Paragraph_t :=
  [ Paragraph "" (resolve LEFT BASE 12);
    Paragraph
      (Time.description time +:+ " ("
       +:+ date.strftime_dmY (Time.date time) +:+ ")")
      (resolve LEFT BOLD 12);
    Paragraph (hours_text (seconds time) +:+ ":"
               +:+ minutes_text (seconds time))
      (resolve RIGHT BOLD 12);
    amount_cell (line_price rate time) ].

Definition fee_rows (f : Fees.t) : list (list Paragraph_t) :=
  map (fee_row (Fees.price f)) (Fees.times f).

(** The width between the margins of a letter page. *)
Definition available_width : F.t :=
  F.sub (fst letter) (F.mul (F.of_int 2) inch).

Definition fee_table (f : Fees.t) : Flowable :=
  Table (fee_rows f)
    [ F.mul available_width (F.lit 0.15);
      F.mul available_width (F.lit 0.55);
      F.mul available_width (F.lit 0.15);
      F.mul available_width (F.lit 0.15) ]
    (Some (replicate (length (Fees.times f)) (F.of_int 12)))
    [ VALIGN (0, 0) (-1, -1) "MIDDLE";
      TOPPADDING (0, 0) (-1, -1) 0;
      BOTTOMPADDING (0, 0) (-1, -1) 0 ].

(** Aggregates, from the unrounded prices, in entry order. *)
Definition subtotal (f : Fees.t) : F.t :=
  F.sum (map (line_price (Fees.price f)) (Fees.times f)).

Definition vat (f : Fees.t) : F.t := F.mul (subtotal f) (F.lit 0.20).

Definition total (f : Fees.t) : F.t := F.add (subtotal f) (vat f).

Definition total_duration_seconds (f : Fees.t) : F.t :=
  F.sum (map seconds (Fees.times f)).

Definition totals_rows (f : Fees.t) : list (list Paragraph_t) :=
  [ [ Paragraph "" (resolve LEFT BASE 12);
      Paragraph
        ("<u>Soit un total de " +:+ hours_text (total_duration_seconds f)
         +:+ "h" +:+ minutes_text (total_duration_seconds f) +:+ "</u>")
        (resolve LEFT BOLD 12);
      Paragraph "" (resolve RIGHT BOLD 12) ];
    [ Paragraph "" (resolve LEFT BASE 12);
      Paragraph "Honoraires H.T." (resolve LEFT BOLD 12);
      amount_cell (subtotal f) ];
    [ Paragraph "" (resolve LEFT BASE 12);
      Paragraph "TVA 20%" (resolve LEFT BOLD 12);
      amount_cell (vat f) ];
    [ Paragraph "" (resolve LEFT BASE 12);
      Paragraph "TOTAL T.T.C. DU" (resolve LEFT BOLD 12);
      amount_cell (total f) ] ].

Definition totals_table (f : Fees.t) : Flowable :=
  Table (totals_rows f)
    [ F.mul available_width (F.lit 0.10);
      F.mul (F.mul available_width (F.lit 0.90)) (F.lit 0.70);
      F.mul (F.mul available_width (F.lit 0.90)) (F.lit 0.30) ]
    None
    [ VALIGN (0, 0) (-1, -1) "MIDDLE";
      BACKGROUND (0, -1) (2, -1) lightgrey ].

(** A gap of [height] lines of 12 points. *)
Definition gap (height : F.t) : Flowable :=
  Spacer (F.of_int 1) (F.mul (F.of_int 12) height).

(** The blocks, in the order of the template. *)
Definition title_blocks (name : string) : list Flowable :=
  [ Para (Paragraph name (resolve CENTER BOLD 16));
    gap (F.lit 0.3);
    Para (Paragraph "Avocate à la Cour" (resolve CENTER BASE 16)) ].

Definition collaborators_heading : Flowable :=
  Paragraph "En collaboration avec :" (resolve LEFT ITALIC 12).

Definition singular_caption : string := "Avocate à la Cour".
Definition plural_caption : string := "Avocates à la Cour".

(** Heading, one line per name, and a closing caption. *)
Definition collaborators_block (names : list string) (caption : string)
    : list Flowable :=
  collaborators_heading
  :: map (fun name => Para (Paragraph name (resolve LEFT BASE 12))) names
  ++ [Para (Paragraph caption (resolve LEFT BASE 12))].

Definition client_block (title : string) (c : Client.t) : list Flowable :=
  [ Para (Paragraph (title +:+ " " +:+ Client.name c)
            (resolve RIGHT BOLD 12));
    Para (Paragraph (Client.adress c) (resolve RIGHT BOLD 12));
    Para (Paragraph (Client.zip_code c +:+ " " +:+ Client.city c)
            (resolve RIGHT BOLD 12)) ].

(** [<place>, le <day> <french-month-name> <year>] *)
Definition place_and_date_line (place : string) (day : Z)
    (month_name : string) (year : Z) : Flowable :=
  Paragraph
    (place +:+ ", le " +:+ pretty day +:+ " " +:+ month_name +:+ " "
     +:+ pretty year)
    (resolve RIGHT BASE 12).

Definition invoice_number_box (number : string) : Flowable :=
  Table [[Paragraph ("FACTURE N°" +:+ number) (resolve CENTER BOLD 12)]]
    [available_width] (Some [F.mul (F.lit 0.5) inch])
    [ BOX (0, 0) (-1, -1) 1 black; VALIGN (0, 0) (-1, -1) "MIDDLE" ].

(** The style commands of a table. *)
Definition table_style (x : Flowable) : list TableCmd :=
  match x with
  | Table _ _ _ ts => ts
  | _ => []
  end.

(** What comes before the fee table in the fee section. *)
Definition fee_heading_blocks (rate_text : string) : list Flowable :=
  [ Para (Paragraph "<u>Honoraires</u>" (resolve LEFT BOLD 12));
    gap (F.of_int 1);
    Para (Paragraph
            ("Facturation horaire : " +:+ rate_text
             +:+ " euros HT de l'heure (selon l'article 2.1 du contrat de mission)")
            (resolve LEFT BOLD 12));
    gap (F.of_int 1);
    Para (Paragraph "Diligences effectuées :" (resolve LEFT BOLD 12));
    gap (F.of_int 1) ].

Definition fee_detail_blocks (rate_text : string) (f : Fees.t)
    : list Flowable :=
  fee_heading_blocks rate_text
  ++ [ fee_table f; gap (F.of_int 5); totals_table f ].

Definition closing_blocks : list Flowable :=
  [ Para (Paragraph "TVA Applicable -" (resolve LEFT ITALIC 12));
    Para (Paragraph "En votre aimable règlement" (resolve LEFT BOLD 12));
    gap (F.of_int 1);
    Para (Paragraph
            "<u>Conformément à nos usages de professions libérales, la présente est payable dès réception</u>"
            (resolve LEFT BASE 12)) ].

(** What follows the collaborators block. *)
Definition after_collaborators (title : string) (c : Client.t)
    (place : string) (day : Z) (month_name : string) (year : Z)
    (number rate_text : string) (f : Fees.t) : list Flowable :=
  client_block title c
  ++ [gap (F.of_int 3)]
  ++ [place_and_date_line place day month_name year]
  ++ [gap (F.lit 0.5)]
  ++ [invoice_number_box number]
  ++ [gap (F.of_int 2)]
  ++ fee_detail_blocks rate_text f
  ++ [gap (F.of_int 2)]
  ++ closing_blocks.

(** The writers [__init__] makes, at any point of a build: the style
    sheet is the sample sheet. *)
Definition ready (self : PDFInvoiceWriter.t) : Prop :=
  PDFInvoiceWriter.styles self = getSampleStyleSheet.

(** The writer after [fs] has been appended to [self.contents]. *)
Definition extended (self : PDFInvoiceWriter.t) (fs : list Flowable)
    : PDFInvoiceWriter.t :=
  PDFInvoiceWriter.set_contents self (PDFInvoiceWriter.contents self ++ fs).

(** A method that only appends [fs] to [self.contents]. *)
Definition appends (m : PDFInvoiceWriter.M unit) (self : PDFInvoiceWriter.t)
    (fs : list Flowable) : Prop :=
  m self = Ok (tt, extended self fs).

(** The same, when the parser accepts the paragraphs of [fs]; the error
    of the first one it rejects otherwise. *)
Definition appends_checked
    (markup_error : string -> ParagraphStyle -> option string)
    (m : PDFInvoiceWriter.M unit) (self : PDFInvoiceWriter.t)
    (fs : list Flowable) : Prop :=
  m self
  = match first_error markup_error (paragraphs fs) with
    | Some msg => Raise (ValueError msg)
    | None => Ok (tt, extended self fs)
    end.

(** The blocks of a build. *)
Definition built_story (float_repr : F.t -> string) (now : datetime.t)
    (month_name : string) (self : PDFInvoiceWriter.t) : list Flowable :=
  let names := LawFirm.collaborators (PDFInvoiceWriter.lawfirm self) in
  title_blocks (LawFirm.principal_lawyer (PDFInvoiceWriter.lawfirm self))
  ++ [gap (F.lit 1.5)]
  ++ match names with
     | [] => []
     | _ :: _ =>
         collaborators_block names
           (if decide (length names = 1%nat)
            then singular_caption else plural_caption)
         ++ [gap (F.of_int 1)]
     end
  ++ after_collaborators
       (if bool_decide
             (Client.gender (PDFInvoiceWriter.client self) = "M")
        then "Monsieur" else "Madame")
       (PDFInvoiceWriter.client self) "Paris" (datetime.day now) month_name
       (datetime.year now) "2025-121"
       (float_repr (Fees.price (PDFInvoiceWriter.fees self)))
       (PDFInvoiceWriter.fees self).

(** What the footer callback does to a canvas: the three lines [lines],
    stacked from an anchor at half the bottom margin. *)
Definition footer_ops (wrap : Paragraph_t -> F.t -> F.t -> F.t * F.t)
    (doc : DocTemplate) (lines : list Paragraph_t) : Canvas :=
  match lines with
  | [line1; line2; line3] =>
      let height p := snd (wrap p (width doc) (bottomMargin doc)) in
      let y0 := F.div_int (bottomMargin doc) 2 in
      [ saveState;
        drawOn line1 (leftMargin doc)
          (F.add y0 (F.mul (height line1) (F.lit 1.5)));
        drawOn line2 (leftMargin doc)
          (F.add y0 (F.mul (height line1) (F.lit 0.5)));
        drawOn line3 (leftMargin doc)
          (F.sub y0 (F.mul (height line2) (F.lit 0.5)));
        restoreState ]
  | _ => []
  end.

(** The three lines of the footer. *)
Definition footer_lines (firm : LawFirm.t) : list Paragraph_t :=
  [ Paragraph
      (LawFirm.adress firm +:+ " " +:+ LawFirm.zip_code firm +:+ " "
       +:+ LawFirm.city firm)
      (resolve CENTER BASE 9);
    Paragraph
      ("Tel : " +:+ LawFirm.phone firm +:+ " - Mail : " +:+ LawFirm.mail firm
       +:+ " - Site : " +:+ LawFirm.website firm)
      (resolve CENTER BASE 9);
    Paragraph
      ("TVA Intracommunautaire : " +:+ LawFirm.vat_number firm
       +:+ " - SIRET : " +:+ LawFirm.siret_number firm)
      (resolve CENTER BASE 9) ].

End Spec.

(** * Properties *)

(** ** Rounding to the nearest integer *)

Lemma Qfloor_bounds (x : Q) :
  (inject_Z (Qfloor x) <= x < inject_Z (Qfloor x + 1))%Q.
Proof. split; [apply Qfloor_le | apply Qlt_floor]. Qed.

Lemma round_half_even_inject_Z (n : Z) (x : Q) :
  (x == inject_Z n)%Q -> round_half_even x = n.
Proof.
  intros Hx. unfold round_half_even.
  assert (Hf : Qfloor x = n) by (rewrite Hx; apply Qfloor_Z).
  rewrite Hf.
  assert (Hc : (x - inject_Z n ?= 1 # 2)%Q = Lt).
  { apply (proj1 (Qlt_alt _ _)). rewrite Hx. lra. }
  now rewrite Hc.
Qed.

Lemma round_half_even_comp (x y : Q) :
  (x == y)%Q -> round_half_even x = round_half_even y.
Proof.
  intros Hxy. unfold round_half_even.
  rewrite (Qfloor_comp x y Hxy).
  assert (Hc : (x - inject_Z (Qfloor y) ?= 1 # 2)%Q
               = (y - inject_Z (Qfloor y) ?= 1 # 2)%Q).
  { apply Qcompare_comp; [now rewrite Hxy | reflexivity]. }
  now rewrite Hc.
Qed.

(** Rounding moves a number by half a unit at most. *)
Lemma round_half_even_error (x : Q) :
  (inject_Z (round_half_even x) - (1 # 2) <= x
   <= inject_Z (round_half_even x) + (1 # 2))%Q.
Proof.
  unfold round_half_even.
  destruct (Qfloor_bounds x) as [Hlo Hhi].
  rewrite inject_Z_plus in Hhi. change (inject_Z 1) with 1%Q in Hhi.
  destruct (x - inject_Z (Qfloor x) ?= 1 # 2)%Q eqn:Hc.
  - apply Qeq_alt in Hc.
    destruct (Z.even (Qfloor x));
      [| rewrite inject_Z_plus; change (inject_Z 1) with 1%Q]; split; lra.
  - apply Qlt_alt in Hc. split; lra.
  - apply Qgt_alt in Hc. rewrite inject_Z_plus.
    change (inject_Z 1) with 1%Q. split; lra.
Qed.

(** An integer on either side of a number is on the same side of its
    rounding. *)
Lemma round_half_even_le (x : Q) (n : Z) :
  (x <= inject_Z n)%Q -> round_half_even x <= n.
Proof.
  intros Hx. unfold round_half_even.
  destruct (Qfloor_bounds x) as [Hlo Hhi].
  assert (Hf : Qfloor x <= n).
  { rewrite Zle_Qle. lra. }
  destruct (Z.eq_dec (Qfloor x) n) as [E | E].
  - assert (Hc : (x - inject_Z (Qfloor x) ?= 1 # 2)%Q = Lt).
    { apply (proj1 (Qlt_alt _ _)). rewrite E. lra. }
    rewrite Hc. lia.
  - destruct (x - inject_Z (Qfloor x) ?= 1 # 2)%Q;
      [destruct (Z.even (Qfloor x)) | |]; lia.
Qed.

Lemma round_half_even_ge (x : Q) (n : Z) :
  (inject_Z n <= x)%Q -> n <= round_half_even x.
Proof.
  intros Hx. unfold round_half_even.
  destruct (Qfloor_bounds x) as [Hlo Hhi].
  assert (Hf : n <= Qfloor x).
  { assert (H : (inject_Z n < inject_Z (Qfloor x + 1))%Q) by lra.
    rewrite <- Zlt_Qlt in H. lia. }
  destruct (x - inject_Z (Qfloor x) ?= 1 # 2)%Q;
    [destruct (Z.even (Qfloor x)) | |]; lia.
Qed.

Lemma round_half_even_mono (x y : Q) :
  (x <= y)%Q -> round_half_even x <= round_half_even y.
Proof.
  intros Hxy.
  pose proof (round_half_even_error x) as [Hx1 Hx2].
  pose proof (round_half_even_error y) as [Hy1 Hy2].
  destruct (Z_le_gt_dec (round_half_even x) (round_half_even y)) as [H | H];
    [exact H | exfalso].
  (* rx >= ry + 1, and rx - 1/2 <= x <= y <= ry + 1/2: so rx = ry + 1 and
     x = y = ry + 1/2: a tie, rounded two ways *)
  assert (H1 : (inject_Z (round_half_even y + 1)
                <= inject_Z (round_half_even x))%Q).
  { rewrite <- Zle_Qle. lia. }
  rewrite inject_Z_plus in H1. change (inject_Z 1) with 1%Q in H1.
  assert (Ex : (x == inject_Z (round_half_even x) - (1 # 2))%Q) by lra.
  assert (Exy : (x == y)%Q) by lra.
  rewrite (round_half_even_comp x y Exy) in H. lia.
Qed.

(** ** Powers of two *)

Lemma pow2_pos (z : Z) : (0 < 2 ^ z)%Q.
Proof. apply Qpower_0_lt. reflexivity. Qed.

Lemma pow2_nonzero (z : Z) : ~ (2 ^ z == 0)%Q.
Proof. pose proof (pow2_pos z). lra. Qed.

Lemma pow2_le (a b : Z) : a <= b -> (2 ^ a <= 2 ^ b)%Q.
Proof. intros H. apply Qpower_le_compat_l; [exact H | discriminate]. Qed.

Lemma pow2_lt (a b : Z) : a < b -> (2 ^ a < 2 ^ b)%Q.
Proof. intros H. apply Qpower_lt_compat_l; [exact H | reflexivity]. Qed.

Lemma pow2_lt_inv (a b : Z) : (2 ^ a < 2 ^ b)%Q -> a < b.
Proof. intros H. apply (Qpower_lt_compat_l_inv 2); [exact H | reflexivity]. Qed.

Lemma pow2_plus (a b : Z) : (2 ^ (a + b) == 2 ^ a * 2 ^ b)%Q.
Proof. apply Qpower_plus. discriminate. Qed.

Lemma pow2_minus (a b : Z) : (2 ^ (a - b) == 2 ^ a / 2 ^ b)%Q.
Proof. apply Qpower_minus. discriminate. Qed.

Lemma pow2_succ (a : Z) : (2 ^ (a + 1) == 2 * 2 ^ a)%Q.
Proof. rewrite pow2_plus. change (2 ^ 1)%Q with 2%Q. ring. Qed.

Lemma pow2_inject_Z (n : Z) : 0 <= n -> (inject_Z (2 ^ n) == 2 ^ n)%Q.
Proof. intros H. now rewrite Zpower_Qpower. Qed.

(** ** The binary exponent *)

Lemma Qmake_times_den (n : Z) (d : positive) :
  ((n # d) * inject_Z (Zpos d) == inject_Z n)%Q.
Proof. unfold Qeq, Qmult, inject_Z. simpl. lia. Qed.

Lemma ilog2_spec (q : Q) :
  (0 < q)%Q -> (2 ^ F.ilog2 q <= q < 2 ^ (F.ilog2 q + 1))%Q.
Proof.
  intros Hq. destruct q as [n d].
  assert (Hn : 0 < n) by (unfold Qlt in Hq; simpl in Hq; lia).
  unfold F.ilog2. cbn [Qnum Qden].
  set (ln := Z.log2 n). set (ld := Z.log2 (Zpos d)).
  destruct (Z.log2_spec n Hn) as [Hn1 Hn2]. fold ln in Hn1, Hn2.
  destruct (Z.log2_spec (Zpos d) eq_refl) as [Hd1 Hd2]. fold ld in Hd1, Hd2.
  assert (Hln : 0 <= ln) by apply Z.log2_nonneg.
  assert (Hld : 0 <= ld) by apply Z.log2_nonneg.
  rewrite Zle_Qle, pow2_inject_Z in Hn1, Hd1 by assumption.
  rewrite Zlt_Qlt, pow2_inject_Z in Hn2, Hd2 by lia.
  replace (Z.succ ln) with (ln + 1) in Hn2 by lia.
  replace (Z.succ ld) with (ld + 1) in Hd2 by lia.
  rewrite pow2_succ in Hn2, Hd2.
  pose proof (Qmake_times_den n d) as Hq'.
  set (q := n # d) in *. set (N := inject_Z n) in *.
  set (D := inject_Z (Zpos d)) in *.
  pose proof (pow2_pos ln) as HA. pose proof (pow2_pos ld) as HB.
  set (A := (2 ^ ln)%Q) in *. set (B := (2 ^ ld)%Q) in *.
  assert (Hlo : (2 ^ (ln - ld - 1) < q)%Q).
  { replace (ln - ld - 1) with (ln - (ld + 1)) by lia.
    rewrite pow2_minus, pow2_succ. fold A B.
    apply Qlt_shift_div_r; [lra |].
    assert (H1 : (q * (2 * B) > q * D)%Q).
    { apply Qmult_lt_l; [exact Hq | lra]. }
    lra. }
  assert (Hhi : (q < 2 ^ (ln - ld + 1))%Q).
  { replace (ln - ld + 1) with (ln + 1 - ld) by lia.
    rewrite pow2_minus, pow2_succ. fold A B.
    apply Qlt_shift_div_l; [exact HB |].
    assert (H1 : (q * B <= q * D)%Q).
    { apply Qmult_le_l; [exact Hq | lra]. }
    lra. }
  destruct (Qle_bool (2 ^ (ln - ld)) q) eqn:E.
  - apply Qle_bool_iff in E. split; [exact E | exact Hhi].
  - split; [apply Qlt_le_weak; exact Hlo |].
    replace (ln - ld - 1 + 1) with (ln - ld) by lia.
    apply Qnot_le_lt. intros H. apply Qle_bool_iff in H. congruence.
Qed.

Lemma ilog2_unique (q : Q) (k : Z) :
  (2 ^ k <= q < 2 ^ (k + 1))%Q -> F.ilog2 q = k.
Proof.
  intros [H1 H2].
  assert (Hq : (0 < q)%Q) by (pose proof (pow2_pos k); lra).
  destruct (ilog2_spec q Hq) as [H3 H4].
  assert (F.ilog2 q < k + 1) by (apply pow2_lt_inv; lra).
  assert (k < F.ilog2 q + 1) by (apply pow2_lt_inv; lra).
  lia.
Qed.

Lemma ilog2_comp (p q : Q) :
  (0 < p)%Q -> (p == q)%Q -> F.ilog2 p = F.ilog2 q.
Proof.
  intros Hp Hpq. symmetry. apply ilog2_unique. rewrite <- Hpq.
  apply ilog2_spec, Hp.
Qed.

Lemma ilog2_mono (p q : Q) :
  (0 < p)%Q -> (p <= q)%Q -> F.ilog2 p <= F.ilog2 q.
Proof.
  intros Hp Hpq.
  destruct (ilog2_spec p Hp) as [H1 _].
  destruct (ilog2_spec q) as [_ H2]; [lra |].
  assert (F.ilog2 p < F.ilog2 q + 1) by (apply pow2_lt_inv; lra).
  lia.
Qed.

(** ** Rounding to binary64 *)

Lemma Qeq_bool_comp_l (p q r : Q) :
  (p == q)%Q -> Qeq_bool p r = Qeq_bool q r.
Proof.
  intros H. destruct (Qeq_bool q r) eqn:E.
  - apply Qeq_bool_iff. apply Qeq_bool_iff in E. now rewrite H.
  - destruct (Qeq_bool p r) eqn:E'; [| reflexivity].
    apply Qeq_bool_iff in E'. apply Qeq_bool_neq in E.
    exfalso. apply E. now rewrite <- H.
Qed.

Lemma Qle_bool_comp (p q r s : Q) :
  (p == q)%Q -> (r == s)%Q -> Qle_bool p r = Qle_bool q s.
Proof.
  intros H H'. destruct (Qle_bool q s) eqn:E.
  - apply Qle_bool_iff. apply Qle_bool_iff in E. now rewrite H, H'.
  - destruct (Qle_bool p r) eqn:E'; [| reflexivity].
    apply Qle_bool_iff in E'. rewrite H, H' in E'.
    apply Qle_bool_iff in E'. congruence.
Qed.

Lemma Qle_bool_false (p q : Q) : Qle_bool p q = false <-> (q < p)%Q.
Proof.
  split; intros H.
  - apply Qnot_le_lt. intros H'. apply Qle_bool_iff in H'. congruence.
  - destruct (Qle_bool p q) eqn:E; [| reflexivity].
    apply Qle_bool_iff in E. lra.
Qed.

Lemma Qeq_bool_false (p q : Q) : Qeq_bool p q = false <-> ~ (p == q)%Q.
Proof.
  split; [apply Qeq_bool_neq |]. intros H.
  destruct (Qeq_bool p q) eqn:E; [| reflexivity].
  apply Qeq_bool_iff in E. contradiction.
Qed.

Lemma Qabs_pos_lt (q : Q) : ~ (q == 0)%Q -> (0 < Qabs q)%Q.
Proof.
  intros H. pose proof (Qabs_nonneg q) as H0.
  destruct (Qeq_dec (Qabs q) 0) as [E | E]; [| lra].
  exfalso. apply H. destruct (Qlt_le_dec q 0) as [Hn | Hp].
  - rewrite Qabs_neg in E by lra. lra.
  - rewrite Qabs_pos in E by lra. exact E.
Qed.

Lemma ulp_exponent_comp (p q : Q) :
  ~ (p == 0)%Q -> (p == q)%Q -> F.ulp_exponent p = F.ulp_exponent q.
Proof.
  intros Hp H. unfold F.ulp_exponent.
  rewrite (ilog2_comp (Qabs p) (Qabs q)); [reflexivity | |].
  - apply Qabs_pos_lt, Hp.
  - now apply Qabs_wd.
Qed.

Lemma ulp_exponent_pos (q : Q) :
  (0 < q)%Q -> F.ulp_exponent q = Z.max (F.ilog2 q - 52) (-1074).
Proof.
  intros Hq. unfold F.ulp_exponent.
  rewrite (ilog2_comp (Qabs q) q); [reflexivity | |].
  - apply Qabs_pos_lt. lra.
  - apply Qabs_pos. lra.
Qed.

(** Two fractions of the same value round to the same float. *)
Lemma round_comp (p q : Q) : (p == q)%Q -> F.round p = F.round q.
Proof.
  intros H. unfold F.round.
  rewrite (Qeq_bool_comp_l p q 0 H).
  destruct (Qeq_bool q 0) eqn:E; [reflexivity |].
  assert (Hp : ~ (p == 0)%Q).
  { apply Qeq_bool_neq in E. now rewrite H. }
  rewrite (ulp_exponent_comp p q Hp H).
  rewrite (Qle_bool_comp 0 0 p q (Qeq_refl 0) H).
  rewrite (round_half_even_comp (Qabs p / 2 ^ F.ulp_exponent q)
             (Qabs q / 2 ^ F.ulp_exponent q))
    by (now rewrite (Qabs_wd p q H)).
  reflexivity.
Qed.

(** The rounding of a positive number: a number of units in the last
    place. *)
Lemma round_pos (q : Q) :
  (0 < q)%Q ->
  F.round q
  = let eps := F.ulp_exponent q in
    let m := round_half_even (q / 2 ^ eps) in
    if m =? 0 then F.Finite 0
    else if Qle_bool (2 ^ 1024) (inject_Z m * 2 ^ eps) then F.Inf false
    else F.Finite (Qred (inject_Z m * 2 ^ eps)).
Proof.
  intros Hq. unfold F.round.
  assert (E : Qeq_bool q 0 = false) by (apply Qeq_bool_false; lra).
  assert (E' : Qle_bool 0 q = true) by (apply Qle_bool_iff; lra).
  rewrite E, E'. cbn [negb]. cbv zeta.
  rewrite (round_half_even_comp (Qabs q / 2 ^ F.ulp_exponent q)
             (q / 2 ^ F.ulp_exponent q))
    by (rewrite Qabs_pos by lra; reflexivity).
  reflexivity.
Qed.

(** A number of at most 53 bits, scaled within the exponent range, is a
    float: rounding leaves it as it is. *)
Lemma round_exact (m e : Z) :
  0 < m < 2 ^ 53 -> -1074 <= e ->
  (inject_Z m * 2 ^ e < 2 ^ 1024)%Q ->
  F.round (inject_Z m * 2 ^ e) = F.Finite (Qred (inject_Z m * 2 ^ e)).
Proof.
  intros Hm He Hmax.
  set (q := (inject_Z m * 2 ^ e)%Q) in *.
  pose proof (pow2_pos e) as He'.
  assert (Hm1 : (1 <= inject_Z m)%Q).
  { change 1%Q with (inject_Z 1). rewrite <- Zle_Qle. lia. }
  assert (Hm2 : (inject_Z m < 2 ^ 53)%Q).
  { rewrite <- (pow2_inject_Z 53) by lia. rewrite <- Zlt_Qlt. lia. }
  assert (Hq : (0 < q)%Q).
  { unfold q. apply Qmult_lt_0_compat; lra. }
  rewrite (round_pos q Hq). cbv zeta.
  set (eps := F.ulp_exponent q).
  assert (Heps : eps <= e).
  { unfold eps. rewrite (ulp_exponent_pos q Hq).
    destruct (ilog2_spec q Hq) as [H1 _].
    assert (H2 : (q < 2 ^ (53 + e))%Q).
    { unfold q. rewrite pow2_plus.
      apply Qmult_lt_r; [exact He' | exact Hm2]. }
    assert (F.ilog2 q < 53 + e) by (apply pow2_lt_inv; lra).
    lia. }
  set (M := m * 2 ^ (e - eps)).
  assert (HM : (q / 2 ^ eps == inject_Z M)%Q).
  { unfold M, q. rewrite inject_Z_mult, pow2_inject_Z by lia.
    rewrite pow2_minus. field. apply pow2_nonzero. }
  rewrite (round_half_even_inject_Z M _ HM).
  assert (HM0 : 0 < M).
  { unfold M. apply Z.mul_pos_pos; [lia |]. apply Z.pow_pos_nonneg; lia. }
  assert (Hv : (inject_Z M * 2 ^ eps == q)%Q).
  { rewrite <- HM. field. apply pow2_nonzero. }
  replace (M =? 0) with false by (symmetry; apply Z.eqb_neq; lia).
  replace (Qle_bool (2 ^ 1024) (inject_Z M * 2 ^ eps)) with false
    by (symmetry; apply Qle_bool_false; rewrite Hv; exact Hmax).
  f_equal. apply Qred_complete, Hv.
Qed.

Lemma Qred_inject_Z (z : Z) : Qred (inject_Z z) = inject_Z z.
Proof.
  unfold Qred, inject_Z.
  pose proof (Z.ggcd_gcd z 1) as Hg.
  pose proof (Z.ggcd_correct_divisors z 1) as Hd.
  destruct (Z.ggcd z 1) as [g [a b]]. cbn [fst snd] in *.
  rewrite Z.gcd_1_r in Hg. subst g. destruct Hd as [Ha Hb].
  assert (a = z) by lia. assert (b = 1) by lia. subst a b. reflexivity.
Qed.

(** Integers under 2^53 are floats. *)
Lemma round_int (z : Z) :
  0 <= z < 2 ^ 53 -> F.round (inject_Z z) = F.Finite (inject_Z z).
Proof.
  intros Hz. destruct (Z.eq_dec z 0) as [-> | Hnz]; [reflexivity |].
  assert (E : (inject_Z z == inject_Z z * 2 ^ 0)%Q)
    by (change (2 ^ 0)%Q with 1%Q; ring).
  rewrite (round_comp _ _ E), round_exact; [| lia | lia |].
  - rewrite <- (Qred_complete _ _ E). now rewrite Qred_inject_Z.
  - rewrite <- E.
    apply Qlt_trans with (2 ^ 53)%Q; [| now apply pow2_lt].
    rewrite <- (pow2_inject_Z 53) by lia. rewrite <- Zlt_Qlt. lia.
Qed.

Lemma Qdiv_le_compat (a b p : Q) :
  (0 < p)%Q -> (a <= b)%Q -> (a / p <= b / p)%Q.
Proof.
  intros Hp H. unfold Qdiv. apply Qmult_le_compat_r; [exact H |].
  apply Qlt_le_weak, Qinv_lt_0_compat, Hp.
Qed.

Lemma Qdiv_le_mult (a b p : Q) :
  (0 < p)%Q -> (a / p <= b)%Q -> (a <= b * p)%Q.
Proof.
  intros Hp H.
  assert (E : (a == a / p * p)%Q) by (field; lra).
  rewrite E. apply Qmult_le_compat_r; [exact H | lra].
Qed.

Lemma Qle_div_mult (a b p : Q) :
  (0 < p)%Q -> (a <= b / p)%Q -> (a * p <= b)%Q.
Proof.
  intros Hp H.
  assert (E : (b == b / p * p)%Q) by (field; lra).
  rewrite E. apply Qmult_le_compat_r; [exact H | lra].
Qed.

Lemma Qdiv_lt_mult (a b p : Q) :
  (0 < p)%Q -> (a / p < b)%Q -> (a < b * p)%Q.
Proof.
  intros Hp H.
  assert (E : (a == a / p * p)%Q) by (field; lra).
  rewrite E. apply Qmult_lt_r; [exact Hp | exact H].
Qed.

(** Between two integers under 2^53 a number rounds to a float between
    them. *)
Lemma round_between_ints (q : Q) (lo hi : Z) :
  0 <= lo -> hi < 2 ^ 53 ->
  (inject_Z lo <= q <= inject_Z hi)%Q ->
  exists v, F.round q = F.Finite v /\ (inject_Z lo <= v <= inject_Z hi)%Q.
Proof.
  intros Hlo Hhi [H1 H2].
  assert (Hlo' : (0 <= inject_Z lo)%Q).
  { change 0%Q with (inject_Z 0). now rewrite <- Zle_Qle. }
  destruct (Qeq_dec q 0) as [E | E].
  - exists 0%Q. split.
    + unfold F.round. now rewrite (proj2 (Qeq_bool_iff q 0) E).
    + lra.
  - assert (Hq : (0 < q)%Q) by lra.
    rewrite (round_pos q Hq). cbv zeta.
    set (eps := F.ulp_exponent q).
    assert (Hhi' : (inject_Z hi < 2 ^ 53)%Q).
    { rewrite <- (pow2_inject_Z 53) by lia. now rewrite <- Zlt_Qlt. }
    assert (Heps : eps <= 0).
    { unfold eps. rewrite (ulp_exponent_pos q Hq).
      destruct (ilog2_spec q Hq) as [H3 _].
      assert (F.ilog2 q < 53) by (apply pow2_lt_inv; lra).
      lia. }
    pose proof (pow2_pos eps) as Hp.
    assert (Hscale : forall z : Z,
               (inject_Z (z * 2 ^ (- eps)) == inject_Z z / 2 ^ eps)%Q).
    { intros z. rewrite inject_Z_mult, pow2_inject_Z by lia.
      rewrite Qpower_opp. reflexivity. }
    set (m := round_half_even (q / 2 ^ eps)).
    assert (Hm1 : lo * 2 ^ (- eps) <= m).
    { apply round_half_even_ge. rewrite Hscale.
      now apply Qdiv_le_compat. }
    assert (Hm2 : m <= hi * 2 ^ (- eps)).
    { apply round_half_even_le. rewrite Hscale.
      now apply Qdiv_le_compat. }
    assert (Hv : (inject_Z lo <= inject_Z m * 2 ^ eps <= inject_Z hi)%Q).
    { rewrite Zle_Qle, Hscale in Hm1, Hm2. split.
      - now apply Qdiv_le_mult.
      - now apply Qle_div_mult. }
    destruct (m =? 0) eqn:Em.
    + apply Z.eqb_eq in Em. rewrite Em in Hv.
      change (inject_Z 0) with 0%Q in Hv. rewrite Qmult_0_l in Hv.
      exists 0%Q. split; [reflexivity | lra].
    + replace (Qle_bool (2 ^ 1024) (inject_Z m * 2 ^ eps)) with false.
      * eexists. split; [reflexivity |]. now rewrite Qred_correct.
      * symmetry. apply Qle_bool_false.
        apply Qle_lt_trans with (inject_Z hi); [apply Hv |].
        apply Qlt_trans with (2 ^ 53)%Q; [exact Hhi' | now apply pow2_lt].
Qed.

Lemma round_nonneg_mantissa (q : Q) (eps : Z) :
  (0 < q)%Q -> 0 <= round_half_even (q / 2 ^ eps).
Proof.
  intros Hq. apply round_half_even_ge. change (inject_Z 0) with 0%Q.
  apply Qle_shift_div_l; [apply pow2_pos | lra].
Qed.

(** A positive number does not round to a negative float. *)
Lemma signbit_round_pos (q : Q) :
  (0 < q)%Q -> F.signbit (F.round q) = false.
Proof.
  intros Hq. rewrite (round_pos q Hq). cbv zeta.
  pose proof (round_nonneg_mantissa q (F.ulp_exponent q) Hq) as Hm.
  destruct (_ =? 0); [reflexivity |].
  destruct (Qle_bool (2 ^ 1024) _); [reflexivity |].
  cbn [F.signbit].
  replace (Qle_bool 0 _) with true; [reflexivity |].
  symmetry. apply Qle_bool_iff. rewrite Qred_correct.
  apply Qmult_le_0_compat.
  - change 0%Q with (inject_Z 0). now rewrite <- Zle_Qle.
  - apply Qlt_le_weak, pow2_pos.
Qed.

(** The last step of a floor division, on a quotient that is a whole
    number already. *)
Lemma floor_correction (k : Z) (x : F.t) :
  0 <= k -> (k = 0 -> F.signbit x = false) ->
  (if negb (F.is_zero (F.Finite (inject_Z k)))
   then
     let floordiv := F.floor (F.Finite (inject_Z k)) in
     if F.ltb (F.lit 0.5) (F.sub (F.Finite (inject_Z k)) floordiv)
     then F.add floordiv (F.of_int 1) else floordiv
   else F.signed_zero (F.signbit x))
  = F.Finite (inject_Z k).
Proof.
  intros Hk Hx. destruct (Z.eq_dec k 0) as [-> | Hk0].
  - cbn. now rewrite Hx.
  - assert (E : Qeq_bool (inject_Z k) 0 = false).
    { apply Qeq_bool_false. unfold Qeq, inject_Z. simpl. lia. }
    cbn [F.is_zero]. rewrite E. cbn [negb]. cbv zeta.
    unfold F.floor. rewrite Qfloor_Z.
    unfold F.sub, F.opp. rewrite E. unfold F.add.
    assert (E0 : (inject_Z k + Qred (- inject_Z k) == 0)%Q)
      by (rewrite Qred_correct; ring).
    rewrite (round_comp _ _ E0). reflexivity.
Qed.

(** ** Floor division and remainder of a non-negative float *)

Section FloorDivision.
Variable v : Q.
Variable n : positive.
Hypothesis v_nonneg : (0 <= v)%Q.

Let N : Q := inject_Z (Zpos n).
Let k : Z := Qfloor (v / N).
Let r : Q := (v - N * inject_Z k)%Q.

Lemma N_pos : (0 < N)%Q.
Proof. unfold N, Qlt. simpl. lia. Qed.

Lemma quotient_bounds : (N * inject_Z k <= v < N * inject_Z k + N)%Q.
Proof.
  pose proof N_pos as HN.
  destruct (Qfloor_bounds (v / N)) as [Hlo Hhi]. fold k in Hlo, Hhi.
  rewrite inject_Z_plus in Hhi. change (inject_Z 1) with 1%Q in Hhi.
  apply (Qle_div_mult _ _ N HN) in Hlo.
  apply (Qdiv_lt_mult _ _ N HN) in Hhi.
  split; lra.
Qed.

Lemma quotient_nonneg : 0 <= k.
Proof.
  pose proof N_pos as HN. destruct quotient_bounds as [_ H].
  assert (H' : (inject_Z (-1) < inject_Z k)%Q).
  { change (inject_Z (-1)) with (-1)%Q.
    apply Qnot_le_lt. intros Hk.
    assert ((N * inject_Z k <= N * -1)%Q) by (apply Qmult_le_l; lra).
    lra. }
  rewrite <- Zlt_Qlt in H'. lia.
Qed.

Lemma remainder_range : (0 <= r < N)%Q.
Proof. unfold r. destruct quotient_bounds. split; lra. Qed.

Lemma fmod_int_nonneg :
  F.fmod_int (F.Finite v) n
  = if Qeq_bool r 0 then F.Finite 0 else F.Finite (Qred r).
Proof.
  unfold F.fmod_int.
  rewrite (proj2 (Qle_bool_iff 0 v) v_nonneg). reflexivity.
Qed.

(** The remainder is exact. *)
Lemma mod_int_nonneg :
  F.mod_int (F.Finite v) n
  = if Qeq_bool r 0 then F.Finite 0 else F.Finite (Qred r).
Proof.
  unfold F.mod_int. rewrite fmod_int_nonneg.
  destruct (Qeq_bool r 0) eqn:E; [reflexivity |].
  cbn [F.is_zero negb].
  rewrite (Qeq_bool_comp_l (Qred r) r 0 (Qred_correct r)), E. cbn [negb].
  unfold F.ltb. cbn [F.value].
  replace (Qle_bool 0 (Qred r)) with true; [reflexivity |].
  symmetry. apply Qle_bool_iff. rewrite Qred_correct.
  apply remainder_range.
Qed.

Lemma mod_int_value :
  exists w, F.mod_int (F.Finite v) n = F.Finite w /\ (w == r)%Q.
Proof.
  rewrite mod_int_nonneg. destruct (Qeq_bool r 0) eqn:E.
  - exists 0%Q. split; [reflexivity |]. apply Qeq_bool_iff in E. now symmetry.
  - exists (Qred r). split; [reflexivity | apply Qred_correct].
Qed.

Hypothesis v_small : (v < 2 ^ 53)%Q.

Lemma quotient_small : k < 2 ^ 53 /\ Zpos n * k < 2 ^ 53.
Proof.
  pose proof N_pos as HN. destruct quotient_bounds as [H _].
  pose proof quotient_nonneg as Hk.
  assert (H1 : (inject_Z (Zpos n * k) < inject_Z (2 ^ 53))%Q).
  { rewrite inject_Z_mult, pow2_inject_Z by lia. fold N. lra. }
  rewrite <- Zlt_Qlt in H1. split; [nia | exact H1].
Qed.

(** What is left once the remainder is taken off divides exactly. *)
Lemma div_of_difference :
  F.div_int (F.sub (F.Finite v) (F.fmod_int (F.Finite v) n)) n
  = F.Finite (inject_Z k).
Proof.
  pose proof N_pos as HN. pose proof quotient_nonneg as Hk.
  destruct quotient_small as [Hk1 Hk2].
  rewrite fmod_int_nonneg. destruct (Qeq_bool r 0) eqn:E.
  - (* the float is a multiple of the divisor *)
    apply Qeq_bool_iff in E. unfold r in E.
    change (F.sub (F.Finite v) (F.Finite 0)) with (F.Finite v).
    unfold F.div_int. destruct (Qeq_bool v 0) eqn:Ev.
    + apply Qeq_bool_iff in Ev. f_equal.
      assert (Hk0 : k = 0).
      { unfold k. rewrite (Qfloor_comp (v / N) (inject_Z 0)).
        - apply Qfloor_Z.
        - rewrite Ev. change (inject_Z 0) with 0%Q. field. lra. }
      now rewrite Hk0.
    + assert (Ek : (v / inject_Z (Zpos n) == inject_Z k)%Q).
      { fold N. assert (Hv : (v == N * inject_Z k)%Q) by lra.
        transitivity (N * inject_Z k / N)%Q.
        - apply Qdiv_comp; [exact Hv | reflexivity].
        - field. lra. }
      rewrite (round_comp _ _ Ek). apply round_int. lia.
  - assert (Hr : ~ (Qred r == 0)%Q).
    { rewrite Qred_correct. now apply Qeq_bool_neq. }
    unfold F.sub, F.opp. rewrite (proj2 (Qeq_bool_false _ _) Hr).
    unfold F.add.
    assert (Ed : (v + Qred (- Qred r) == inject_Z (Zpos n * k))%Q).
    { rewrite !Qred_correct, inject_Z_mult. fold N. unfold r. ring. }
    rewrite (round_comp _ _ Ed), round_int by lia.
    unfold F.div_int. destruct (Qeq_bool (inject_Z (Zpos n * k)) 0) eqn:Ev.
    + apply Qeq_bool_iff in Ev. f_equal.
      assert (Hk0 : Zpos n * k = 0).
      { unfold Qeq, inject_Z in Ev. simpl in Ev. lia. }
      assert (Hk' : k = 0) by lia. now rewrite Hk'.
    + assert (Ek : (inject_Z (Zpos n * k) / inject_Z (Zpos n)
                    == inject_Z k)%Q).
      { rewrite inject_Z_mult. fold N. field. lra. }
      rewrite (round_comp _ _ Ek). apply round_int. lia.
Qed.

(** The floor division is exact. *)
Lemma floordiv_int_nonneg :
  F.floordiv_int (F.Finite v) n = F.Finite (inject_Z k).
Proof.
  pose proof N_pos as HN. pose proof remainder_range as Hr.
  unfold F.floordiv_int, F.divmod_int. cbv zeta.
  rewrite div_of_difference.
  assert (Hpair :
    (if negb (F.is_zero (F.fmod_int (F.Finite v) n))
     then
       if F.ltb (F.fmod_int (F.Finite v) n) (F.Finite 0)
       then (F.add (F.fmod_int (F.Finite v) n) (F.of_int (Zpos n)),
             F.sub (F.Finite (inject_Z k)) (F.of_int 1))
       else (F.fmod_int (F.Finite v) n, F.Finite (inject_Z k))
     else (F.Finite 0, F.Finite (inject_Z k)))
    = (F.mod_int (F.Finite v) n, F.Finite (inject_Z k))).
  { unfold F.mod_int. destruct (F.is_zero (F.fmod_int (F.Finite v) n)) eqn:Ez;
      cbn [negb]; [reflexivity |].
    replace (F.ltb (F.fmod_int (F.Finite v) n) (F.Finite 0)) with false;
      [reflexivity |].
    rewrite fmod_int_nonneg in *. destruct (Qeq_bool r 0); [discriminate |].
    unfold F.ltb. cbn [F.value]. symmetry.
    apply negb_false_iff, Qle_bool_iff. rewrite Qred_correct. apply Hr. }
  rewrite Hpair. cbn [fst].
  apply floor_correction; [apply quotient_nonneg |].
  intros Hk0. unfold F.div_int.
  destruct (Qeq_bool v 0) eqn:Ev; [reflexivity |].
  apply signbit_round_pos. apply Qeq_bool_neq in Ev.
  apply Qlt_shift_div_l; [exact HN | lra].
Qed.

End FloorDivision.

(** ** Durations *)

(** An integral non-negative float under [02.0f]: its digits, padded to
    two. *)
Lemma format_f_2_0_int (k : Z) :
  0 <= k -> F.format_f 2 0 (F.Finite (inject_Z k)) = zfill 2 (pretty k).
Proof.
  intros Hk. unfold F.format_f. cbn [F.signbit].
  assert (Hq : (0 <= inject_Z k)%Q).
  { change 0%Q with (inject_Z 0). now rewrite <- Zle_Qle. }
  rewrite (proj2 (Qle_bool_iff 0 (inject_Z k)) Hq). cbn [negb].
  rewrite (round_half_even_inject_Z k); [reflexivity |].
  rewrite Qabs_pos by exact Hq.
  change (inject_Z (10 ^ Z.of_nat 0)) with 1%Q. apply Qmult_1_r.
Qed.

(** The seconds of a non-negative duration: a float under 2^53. *)
Lemma total_seconds_nonneg (d : timedelta.t) :
  timedelta.normalized d = true ->
  0 <= timedelta.total_microseconds d ->
  exists s, timedelta.total_seconds d = F.Finite s
            /\ (0 <= s <= 86400000000000)%Q.
Proof.
  intros Hn Hpos. unfold timedelta.normalized in Hn.
  repeat (apply andb_prop in Hn; destruct Hn as [Hn ?]).
  unfold timedelta.total_seconds.
  unfold timedelta.total_microseconds in *.
  destruct (round_between_ints
              ((timedelta.days d * 86400 + timedelta.seconds d) * 10 ^ 6
               + timedelta.microseconds d # 1000000)
              0 86400000000000) as (s & Hs & Hb).
  - lia.
  - reflexivity.
  - unfold Qle, inject_Z. cbn [Qnum Qden]. lia.
  - exists s. split; [exact Hs | exact Hb].
Qed.

Section Decomposition.
Variable s : Q.
Let h : Z := Qfloor (s / 3600).
Let m : Z := Qfloor ((s - 3600 * inject_Z h) / 60).

Lemma hours_bounds : (3600 * inject_Z h <= s < 3600 * inject_Z h + 3600)%Q.
Proof.
  destruct (Qfloor_bounds (s / 3600)) as [Hlo Hhi]. fold h in Hlo, Hhi.
  rewrite inject_Z_plus in Hhi. change (inject_Z 1) with 1%Q in Hhi.
  assert (Hs : (s == 3600 * (s / 3600))%Q) by (field; discriminate).
  split; lra.
Qed.

Lemma minutes_bounds :
  (60 * inject_Z m <= s - 3600 * inject_Z h < 60 * inject_Z m + 60)%Q.
Proof.
  destruct (Qfloor_bounds ((s - 3600 * inject_Z h) / 60)) as [Hlo Hhi].
  fold m in Hlo, Hhi.
  rewrite inject_Z_plus in Hhi. change (inject_Z 1) with 1%Q in Hhi.
  set (r := (s - 3600 * inject_Z h)%Q) in *.
  assert (Hr : (r == 60 * (r / 60))%Q) by (field; discriminate).
  split; lra.
Qed.

Lemma minutes_range : 0 <= m < 60.
Proof.
  destruct hours_bounds as [H1 H2]. destruct minutes_bounds as [H3 H4].
  split.
  - assert (H : (inject_Z (-1) < inject_Z m)%Q).
    { change (inject_Z (-1)) with (-1)%Q. lra. }
    rewrite <- Zlt_Qlt in H. lia.
  - assert (H : (inject_Z m < inject_Z 60)%Q).
    { change (inject_Z 60) with 60%Q. lra. }
    now rewrite <- Zlt_Qlt in H.
Qed.

Lemma hours_nonneg : (0 <= s)%Q -> 0 <= h.
Proof.
  intros Hs. destruct hours_bounds as [H1 H2].
  assert (H : (inject_Z (-1) < inject_Z h)%Q).
  { change (inject_Z (-1)) with (-1)%Q. lra. }
  rewrite <- Zlt_Qlt in H. lia.
Qed.

Lemma duration_between :
  (inject_Z (h * 3600 + m * 60) <= s
   < inject_Z (h * 3600 + (m + 1) * 60))%Q.
Proof.
  destruct minutes_bounds as [H3 H4].
  rewrite !inject_Z_plus, !inject_Z_mult, inject_Z_plus.
  change (inject_Z 3600) with 3600%Q. change (inject_Z 60) with 60%Q.
  change (inject_Z 1) with 1%Q. split; lra.
Qed.

(** What the program writes for a non-negative number of seconds under
    2^53: the whole hours, and the whole minutes of what is left. *)
Lemma hours_text_nonneg :
  (0 <= s < 2 ^ 53)%Q ->
  Spec.hours_text (F.Finite s) = zfill 2 (pretty h).
Proof.
  intros [H0 H1]. unfold Spec.hours_text.
  rewrite (floordiv_int_nonneg s 3600 H0 H1).
  apply format_f_2_0_int. apply hours_nonneg, H0.
Qed.

Lemma minutes_text_nonneg :
  (0 <= s < 2 ^ 53)%Q ->
  Spec.minutes_text (F.Finite s) = zfill 2 (pretty m).
Proof.
  intros [H0 H1]. unfold Spec.minutes_text.
  destruct (mod_int_value s 3600 H0) as (w & Hw & Ew).
  change (inject_Z (Zpos 3600)) with 3600%Q in Ew. fold h in Ew.
  rewrite Hw.
  destruct hours_bounds as [Hh1 Hh2].
  assert (Hw0 : (0 <= w)%Q) by lra.
  assert (Hw1 : (w < 2 ^ 53)%Q).
  { apply Qlt_trans with 3600%Q; [lra | reflexivity]. }
  rewrite (floordiv_int_nonneg w 60 Hw0 Hw1).
  change (inject_Z (Zpos 60)) with 60%Q.
  rewrite (Qfloor_comp (w / 60) ((s - 3600 * inject_Z h) / 60))
    by (now rewrite Ew).
  apply format_f_2_0_int. apply minutes_range.
Qed.

End Decomposition.

(** ** Running the methods *)

Module Run.
Import PDFInvoiceWriter Spec.

Lemma ready_init out c l f : ready (__init__ out c l f).
Proof. reflexivity. Qed.

Lemma ready_set_contents self c : ready self -> ready (set_contents self c).
Proof. intros H. exact H. Qed.

Lemma bind_Ok {A B} (m : M A) (k : A -> M B) self a self' :
  m self = Ok (a, self') -> (m ≫= k) self = k a self'.
Proof. intros H. unfold mbind, M_bind. now rewrite H. Qed.

Lemma bind_Raise {A B} (m : M A) (k : A -> M B) self e :
  m self = Raise e -> (m ≫= k) self = Raise e.
Proof. intros H. unfold mbind, M_bind. now rewrite H. Qed.

Lemma style_ok a f z self :
  ready self -> style a f z self = Ok (Spec.resolve a f z, self).
Proof.
  intros H. unfold style, mbind, M_bind, get_self. rewrite H.
  unfold getSampleStyleSheet. rewrite lookup_singleton_eq.
  destruct a, f; reflexivity.
Qed.

Lemma set_contents_twice self c c' :
  set_contents (set_contents self c) c' = set_contents self c'.
Proof. reflexivity. Qed.

Lemma set_contents_same self : set_contents self (contents self) = self.
Proof. now destruct self. Qed.

Lemma extended_nil self : extended self [] = self.
Proof. unfold extended. now rewrite app_nil_r, set_contents_same. Qed.

Lemma extended_twice self fs gs :
  extended (extended self fs) gs = extended self (fs ++ gs).
Proof. unfold extended. simpl. now rewrite app_assoc. Qed.

(** *** The parser on a list of paragraphs *)

Section Parser.
Variable markup_error : string -> ParagraphStyle -> option string.

Lemma first_error_app (ps qs : list Paragraph_t) :
  first_error markup_error (ps ++ qs)
  = match first_error markup_error ps with
    | Some msg => Some msg
    | None => first_error markup_error qs
    end.
Proof.
  induction ps as [| p ps IH]; simpl; [reflexivity |].
  destruct (markup_error (text p) (pstyle p)); [reflexivity | exact IH].
Qed.

Lemma accepted_app (ps qs : list Paragraph_t) :
  accepted markup_error (ps ++ qs)
  <-> accepted markup_error ps /\ accepted markup_error qs.
Proof.
  unfold accepted. rewrite first_error_app.
  destruct (first_error markup_error ps); split; intros H;
    try tauto; try discriminate; destruct H; discriminate.
Qed.

Lemma accepted_cons (p : Paragraph_t) (ps : list Paragraph_t) :
  accepted markup_error (p :: ps)
  <-> markup_error (text p) (pstyle p) = None /\ accepted markup_error ps.
Proof.
  unfold accepted. simpl.
  destruct (markup_error (text p) (pstyle p)); split; intros H;
    try tauto; try discriminate; destruct H; discriminate.
Qed.

Lemma accepted_In (ps : list Paragraph_t) (p : Paragraph_t) :
  accepted markup_error ps -> In p ps ->
  markup_error (text p) (pstyle p) = None.
Proof.
  induction ps as [| q ps IH]; intros Ha Hin; [destruct Hin |].
  apply accepted_cons in Ha. destruct Ha as [Hq Hps].
  destruct Hin as [-> | Hin]; [exact Hq | now apply IH].
Qed.

Lemma accepted_Forall (ps : list Paragraph_t) :
  accepted markup_error ps
  <-> Forall (fun p => markup_error (text p) (pstyle p) = None) ps.
Proof.
  induction ps as [| p ps IH].
  - split; [constructor | reflexivity].
  - rewrite accepted_cons, Forall_cons, IH. reflexivity.
Qed.

Lemma paragraphs_app (fs gs : list Flowable) :
  paragraphs (fs ++ gs) = paragraphs fs ++ paragraphs gs.
Proof. apply flat_map_app. Qed.

Lemma paragraph_bind {B} text s (k : Paragraph_t -> M B) self :
  (paragraph markup_error text s ≫= k) self
  = match markup_error text s with
    | Some msg => Raise (ValueError msg)
    | None => k (Paragraph text s) self
    end.
Proof.
  unfold paragraph, lift, new_Paragraph, mbind, M_bind.
  destruct (markup_error text s); reflexivity.
Qed.

Lemma paragraph_ok text s self :
  markup_error text s = None ->
  paragraph markup_error text s self = Ok (Paragraph text s, self).
Proof.
  intros H. unfold paragraph, lift, new_Paragraph. now rewrite H.
Qed.

End Parser.

(** *** Methods that append *)

Lemma appends_bind m k self fs gs :
  appends m self fs ->
  appends (k tt) (extended self fs) gs ->
  appends (m ≫= k) self (fs ++ gs).
Proof.
  unfold appends. intros Hm Hk. rewrite (bind_Ok _ _ _ _ _ Hm), Hk.
  now rewrite extended_twice.
Qed.

Lemma appends_contents_append f self : appends (contents_append f) self [f].
Proof. reflexivity. Qed.

Lemma appends_spacer h self :
  appends (spacer h (F.of_int 12)) self [gap h].
Proof. reflexivity. Qed.

Lemma appends_style a f z (k : ParagraphStyle -> M unit) self fs :
  ready self ->
  appends (k (Spec.resolve a f z)) self fs ->
  appends (style a f z ≫= k) self fs.
Proof.
  unfold appends. intros Hr Hk.
  now rewrite (bind_Ok _ _ _ _ _ (style_ok a f z self Hr)).
Qed.

Lemma appends_paragraph markup_error text s
    (k : Paragraph_t -> M unit) self fs :
  markup_error text s = None ->
  appends (k (Paragraph text s)) self fs ->
  appends (paragraph markup_error text s ≫= k) self fs.
Proof.
  unfold appends. intros Ht Hk. now rewrite paragraph_bind, Ht.
Qed.

Lemma appends_get_self (k : t -> M unit) self fs :
  appends (k self) self fs -> appends (get_self ≫= k) self fs.
Proof. unfold appends. intros Hk. exact Hk. Qed.

Lemma appends_ret self : appends (mret tt) self [].
Proof. unfold appends. now rewrite extended_nil. Qed.

Lemma for_each_appends {A} (g : A -> Flowable) (body : A -> M unit) l :
  forall self,
  (forall x, In x l -> forall c,
     body x (set_contents self c) = Ok (tt, set_contents self (c ++ [g x]))) ->
  appends (for_each l body) self (map g l).
Proof.
  induction l as [| x l IH]; intros self Hbody; simpl.
  - apply appends_ret.
  - change (g x :: map g l) with ([g x] ++ map g l).
    apply appends_bind.
    + unfold appends, extended.
      rewrite <- (set_contents_same self) at 1. apply Hbody. now left.
    + apply IH. intros y Hy c. unfold extended. simpl. apply Hbody.
      now right.
Qed.

(** A loop whose body makes the paragraphs of one row. *)
Lemma for_collect_rows {A} markup_error (row : A -> list Paragraph_t)
    (body : A -> M (list Paragraph_t)) self :
  (forall x,
     body x self
     = match first_error markup_error (row x) with
       | Some msg => Raise (ValueError msg)
       | None => Ok (row x, self)
       end) ->
  forall l data,
    for_collect l data body self
    = match first_error markup_error (concat (map row l)) with
      | Some msg => Raise (ValueError msg)
      | None => Ok (data ++ map row l, self)
      end.
Proof.
  intros Hbody l. induction l as [| x l IH]; intros data; simpl.
  - now rewrite app_nil_r.
  - rewrite first_error_app. unfold mbind, M_bind at 1. rewrite Hbody.
    destruct (first_error markup_error (row x)); [reflexivity |].
    rewrite IH, <- app_assoc. reflexivity.
Qed.

Lemma new_Table_ok msg r rest w h ts :
  r <> [] ->
  new_Table msg (r :: rest) w h ts = Ok (Table (r :: rest) w h ts).
Proof.
  intros Hr. unfold new_Table. cbn [length map foldr Nat.eqb orb].
  destruct r as [| c r]; [congruence |]. cbn [length].
  destruct (foldr Nat.max 0%nat (map length rest)); reflexivity.
Qed.

Lemma new_Table_empty msg w h ts :
  new_Table msg [] w h ts = Raise (ValueError msg).
Proof. reflexivity. Qed.

Lemma appends_table msg r rest w h ts (k : Flowable -> M unit) self fs :
  r <> [] ->
  appends (k (Table (r :: rest) w h ts)) self fs ->
  appends (table msg (r :: rest) w h ts ≫= k) self fs.
Proof.
  unfold appends. intros Hr Hk.
  rewrite (bind_Ok _ _ self (Table (r :: rest) w h ts) self); [exact Hk |].
  unfold table, lift. now rewrite new_Table_ok.
Qed.

(** Solving [markup_error text style = None] from the acceptance of a
    list that holds the paragraph. *)
Ltac accept Ha :=
  lazymatch goal with
  | |- ?me ?t ?s = None =>
      apply (accepted_In me _ (Paragraph t s) Ha);
      cbn [paragraphs flat_map paragraphs_of app concat In];
      repeat (first [left; reflexivity | right])
  end.

(** One step of a method body. *)
Ltac step Hr Ha :=
  first
    [ apply appends_get_self
    | apply appends_style; [exact Hr |]
    | apply appends_paragraph; [accept Ha |]
    | apply appends_table; [discriminate |]
    | apply appends_contents_append
    | apply appends_spacer
    | apply (appends_bind _ _ _ [_] _);
      [first [apply appends_contents_append | apply appends_spacer] |] ].

Section Engine.
Variable markup_error : string -> ParagraphStyle -> option string.
Variable empty_table_message : string.
Variable wrap : Paragraph_t -> F.t -> F.t -> F.t * F.t.
Variable float_repr : F.t -> string.
Variable later_pages : DocTemplate -> list Flowable -> nat.
Variable engine_error : DocTemplate -> list Flowable -> option exn.

Lemma lawyer_title_appends name self :
  ready self ->
  accepted markup_error (paragraphs (title_blocks name)) ->
  appends (lawyer_title markup_error name) self (title_blocks name).
Proof.
  intros Hr Ha. unfold lawyer_title, title_blocks in *.
  repeat step Hr Ha.
Qed.

Lemma client_address_appends c self :
  ready self ->
  let title :=
    if bool_decide (Client.gender c = "M") then "Monsieur" else "Madame" in
  accepted markup_error (paragraphs (client_block title c)) ->
  appends (client_address markup_error c) self (client_block title c).
Proof.
  intros Hr title Ha. unfold client_address, client_block in *.
  fold title. repeat step Hr Ha.
Qed.

Lemma invoice_number_rectangle_appends number self :
  ready self ->
  accepted markup_error (paragraphs [invoice_number_box number]) ->
  appends (invoice_number_rectangle markup_error empty_table_message number)
    self [invoice_number_box number].
Proof.
  intros Hr Ha. unfold invoice_number_rectangle, invoice_number_box in *.
  repeat step Hr Ha.
Qed.

Lemma place_and_date_appends place now month_name self :
  ready self ->
  MONTH_TO_FRENCH !! datetime.month now = Some month_name ->
  accepted markup_error
    (paragraphs [place_and_date_line place (datetime.day now) month_name
                   (datetime.year now)]) ->
  appends (place_and_date markup_error place now) self
    [place_and_date_line place (datetime.day now) month_name
       (datetime.year now)].
Proof.
  intros Hr Hm Ha. unfold place_and_date, place_and_date_line in *.
  rewrite Hm. repeat step Hr Ha.
Qed.

Lemma final_appends self :
  ready self ->
  accepted markup_error (paragraphs closing_blocks) ->
  appends (final markup_error) self closing_blocks.
Proof.
  intros Hr Ha. unfold final, closing_blocks in *.
  repeat step Hr Ha.
Qed.

Lemma collaborator_title_appends names self :
  ready self ->
  let caption :=
    "Avocate" +:+ (if 1 <? Z.of_nat (length names) then "s" else "")
    +:+ " à la Cour" in
  accepted markup_error (paragraphs (collaborators_block names caption)) ->
  appends (collaborator_title markup_error names) self
    (collaborators_block names caption).
Proof.
  intros Hr caption Ha.
  unfold collaborator_title, collaborators_block, collaborators_heading in *.
  fold caption.
  change (paragraphs (?a :: ?l)) with (paragraphs_of a ++ paragraphs l) in Ha.
  rewrite paragraphs_app in Ha. cbn [paragraphs_of] in Ha.
  apply accepted_app in Ha. destruct Ha as [Hhead Ha].
  apply accepted_app in Ha. destruct Ha as [Hnames Hcaption].
  apply appends_style; [exact Hr |].
  apply appends_paragraph; [now apply accepted_cons in Hhead |].
  apply (appends_bind _ _ _ [_] _); [apply appends_contents_append |].
  apply appends_bind.
  - apply for_each_appends
      with (g := fun name => Para (Paragraph name (resolve LEFT BASE 12))).
    intros name Hin c.
    assert (Hname : markup_error name (resolve LEFT BASE 12) = None).
    { apply (accepted_In markup_error _ (Paragraph name (resolve LEFT BASE 12))
               Hnames).
      unfold paragraphs. apply in_flat_map.
      exists (Para (Paragraph name (resolve LEFT BASE 12))).
      split; [| now left]. apply in_map_iff. now exists name. }
    match goal with
    | |- (_ ≫= _) ?st = _ =>
        rewrite (bind_Ok _ _ _ _ _ (style_ok LEFT BASE 12 st Hr))
    end.
    now rewrite paragraph_bind, Hname.
  - apply appends_style; [exact Hr |].
    apply appends_paragraph; [now apply accepted_cons in Hcaption |].
    apply appends_contents_append.
Qed.

(** The caption the code picks, for a list that is not empty. *)
Lemma caption_cases (names : list string) :
  names <> [] ->
  "Avocate" +:+ (if 1 <? Z.of_nat (length names) then "s" else "")
  +:+ " à la Cour"
  = if decide (length names = 1%nat)
    then singular_caption else plural_caption.
Proof.
  intros Hne. destruct names as [| a [| b names]]; [congruence | reflexivity |].
  case_decide; [discriminate |].
  replace (1 <? Z.of_nat (length (a :: b :: names))) with true; [reflexivity |].
  symmetry. apply Z.ltb_lt. simpl length. lia.
Qed.

(** The row of one entry. *)
Lemma fee_row_body (f : Fees.t) (time : Time.t) self :
  ready self -> fees self = f ->
  (self0 ← get_self;
   let price :=
     F.mul (F.div_int (timedelta.total_seconds (Time.duration time)) 3600)
       (Fees.price (fees self0)) in
   let hours :=
     F.floordiv_int (timedelta.total_seconds (Time.duration time)) 3600 in
   let minutes :=
     F.floordiv_int
       (F.mod_int (timedelta.total_seconds (Time.duration time)) 3600) 60 in
   s0 ← style LEFT BASE 12;
   p0 ← paragraph markup_error "" s0;
   s1 ← style LEFT BOLD 12;
   p1 ← paragraph markup_error
          (Time.description time +:+ " ("
           +:+ date.strftime_dmY (Time.date time) +:+ ")")
          s1;
   s2 ← style RIGHT BOLD 12;
   p2 ← paragraph markup_error
          (F.format_f 2 0 hours +:+ ":" +:+ F.format_f 2 0 minutes) s2;
   s3 ← style RIGHT BOLD 12;
   p3 ← paragraph markup_error (F.format_f 0 2 price +:+ " €") s3;
   mret [p0; p1; p2; p3]) self
  = match first_error markup_error (fee_row (Fees.price f) time) with
    | Some msg => Raise (ValueError msg)
    | None => Ok (fee_row (Fees.price f) time, self)
    end.
Proof.
  intros Hr <-.
  rewrite (bind_Ok get_self _ self self self eq_refl). cbv zeta.
  unfold fee_row, amount_cell.
  cbn [first_error text pstyle].
  unfold line_price, hours_text, minutes_text, seconds.
  repeat (rewrite (bind_Ok _ _ _ _ _ (style_ok _ _ _ self Hr));
          rewrite paragraph_bind;
          match goal with
          | |- match ?x with _ => _ end = _ =>
              destruct x; [reflexivity |]
          end).
  reflexivity.
Qed.

(** The fee table: the rows of the entries when the parser accepts their
    texts and there is an entry; an error of the page engine otherwise. *)
Lemma list_fee_table_result self :
  ready self ->
  list_fee_table markup_error empty_table_message self
  = match first_error markup_error (concat (fee_rows (fees self))) with
    | Some msg => Raise (ValueError msg)
    | None =>
        match Fees.times (fees self) with
        | [] => Raise (ValueError empty_table_message)
        | _ :: _ => Ok (tt, extended self [fee_table (fees self)])
        end
    end.
Proof.
  intros Hr. unfold list_fee_table.
  rewrite (bind_Ok get_self _ self self self eq_refl).
  unfold mbind at 1, M_bind at 1.
  rewrite (for_collect_rows markup_error (fee_row (Fees.price (fees self))))
    by (intros time; now apply fee_row_body).
  fold (fee_rows (fees self)).
  destruct (first_error markup_error (concat (fee_rows (fees self))));
    [reflexivity |].
  rewrite app_nil_l. unfold fee_table, fee_rows.
  destruct (Fees.times (fees self)) as [| time times]; [reflexivity |].
  cbn [map]. unfold table, lift. rewrite new_Table_ok by discriminate.
  cbn [length]. rewrite length_map. reflexivity.
Qed.

Lemma list_fee_table_appends self :
  ready self ->
  Fees.times (fees self) <> [] ->
  accepted markup_error (paragraphs [fee_table (fees self)]) ->
  appends (list_fee_table markup_error empty_table_message) self
    [fee_table (fees self)].
Proof.
  intros Hr Hne Ha. unfold appends. rewrite (list_fee_table_result self Hr).
  unfold accepted in Ha. cbn [paragraphs flat_map paragraphs_of fee_table] in Ha.
  rewrite app_nil_r in Ha. rewrite Ha.
  destruct (Fees.times (fees self)); [congruence | reflexivity].
Qed.

(** The totals block: produced when the parser accepts its texts. *)
Lemma show_total_result self :
  ready self ->
  appends_checked markup_error
    (show_total markup_error empty_table_message) self
    [totals_table (fees self)].
Proof.
  intros Hr. unfold appends_checked, show_total.
  rewrite (bind_Ok get_self _ self self self eq_refl). cbv zeta.
  do 3 rewrite (bind_Ok _ _ _ _ _ (style_ok _ _ _ self Hr)).
  unfold totals_table, totals_rows, amount_cell.
  cbn [paragraphs flat_map paragraphs_of concat app first_error text pstyle].
  unfold total, vat, subtotal, total_duration_seconds, line_price,
    hours_text, minutes_text, seconds.
  repeat (rewrite paragraph_bind;
          lazymatch goal with
          | |- match ?x with _ => _ end = _ =>
              first [ match goal with E : x = None |- _ => rewrite E end
                    | destruct x eqn:?; [reflexivity |] ]
          end).
  unfold table, lift. rewrite new_Table_ok by discriminate. reflexivity.
Qed.

Lemma show_total_appends self :
  ready self ->
  accepted markup_error (paragraphs [totals_table (fees self)]) ->
  appends (show_total markup_error empty_table_message) self
    [totals_table (fees self)].
Proof.
  intros Hr Ha. unfold appends.
  rewrite (show_total_result self Hr). now rewrite Ha.
Qed.

(** Splitting the acceptance of a story into that of its blocks. *)
Ltac split_accepted H :=
  rewrite ?paragraphs_app in H;
  repeat match type of H with
         | accepted _ (_ ++ _) =>
             let H1 := fresh "Ha" in
             apply accepted_app in H; destruct H as [H1 H]
         end.

Lemma singleton_blocks (a b c : Flowable) : [a; b; c] = [a] ++ [b] ++ [c].
Proof. reflexivity. Qed.

Lemma bind_appends {B} m (k : unit -> M B) self fs :
  appends m self fs -> (m ≫= k) self = k tt (extended self fs).
Proof. intros H. now rewrite (bind_Ok _ _ _ _ _ H). Qed.

(** Running the next call of a body with a lemma on that call, at the
    state the goal is in. *)
Ltac call tac :=
  lazymatch goal with
  | |- (?m ≫= ?k) ?st = _ =>
      let H := fresh "Hcall" in
      eassert (H : appends m st _) by (tac st);
      rewrite (bind_appends m k st _ H); clear H; rewrite ?extended_twice
  | |- appends (?m ≫= ?k) ?st _ =>
      apply (appends_bind _ _ _ [_] _); [tac st |]
  | |- appends _ ?st _ => tac st
  end.

Lemma detail_fees_appends self :
  ready self ->
  Fees.times (fees self) <> [] ->
  let rate_text := float_repr (Fees.price (fees self)) in
  accepted markup_error (paragraphs (fee_detail_blocks rate_text (fees self))) ->
  appends (detail_fees markup_error empty_table_message float_repr) self
    (fee_detail_blocks rate_text (fees self)).
Proof.
  intros Hr Hne rate_text Ha.
  unfold fee_detail_blocks in *. rewrite singleton_blocks in Ha.
  split_accepted Ha.
  unfold detail_fees. fold rate_text. unfold fee_heading_blocks in *.
  apply appends_get_self.
  change [?a; ?b; ?c; ?d; ?e; ?f]
    with ([a] ++ [b] ++ [c] ++ [d] ++ [e] ++ [f]).
  rewrite <- !app_assoc.
  change (paragraphs ([?a] ++ [?b] ++ [?c] ++ [?d] ++ [?e] ++ [?f]))
    with (paragraphs [a; b; c; d; e; f]) in Ha0.
  do 10 step Hr Ha0.
  call ltac:(fun st => exact (list_fee_table_appends st Hr Hne Ha1)).
  apply (appends_bind _ _ _ [_] _); [apply appends_spacer |].
  call ltac:(fun st => exact (show_total_appends st Hr Ha)).
Qed.

Lemma collaborators_part_appends self :
  ready self ->
  let names := LawFirm.collaborators (lawfirm self) in
  let blocks :=
    match names with
    | [] => []
    | _ :: _ =>
        collaborators_block names
          (if decide (length names = 1%nat)
           then singular_caption else plural_caption)
        ++ [gap (F.of_int 1)]
    end in
  accepted markup_error (paragraphs blocks) ->
  appends
    match names with
    | [] => mret tt
    | _ :: _ =>
        collaborator_title markup_error names;;
        spacer (F.of_int 1) (F.of_int 12)
    end
    self blocks.
Proof.
  intros Hr names blocks Ha. subst blocks.
  destruct names as [| a names'] eqn:E.
  - apply appends_ret.
  - rewrite <- caption_cases in * by discriminate.
    split_accepted Ha.
    apply appends_bind; [| apply appends_spacer].
    exact (collaborator_title_appends (a :: names') self Hr Ha0).
Qed.

(** The footer callback, on the three lines of the firm. *)
Lemma draw_footer_ok self canvas doc :
  ready self ->
  accepted markup_error (footer_lines (lawfirm self)) ->
  _draw_footer markup_error wrap canvas doc self
  = Ok (canvas ++ footer_ops wrap doc (footer_lines (lawfirm self)), self).
Proof.
  intros Hr Ha. unfold footer_lines in *.
  apply accepted_cons in Ha. destruct Ha as [H1 Ha].
  apply accepted_cons in Ha. destruct Ha as [H2 Ha].
  apply accepted_cons in Ha. destruct Ha as [H3 _].
  cbn [text pstyle] in H1, H2, H3.
  unfold _draw_footer, footer_ops.
  rewrite (bind_Ok get_self _ self self self eq_refl).
  rewrite (bind_Ok _ _ _ _ _ (style_ok CENTER BASE 9 self Hr)).
  rewrite paragraph_bind, H1.
  destruct (wrap _ (width doc) (bottomMargin doc)) as [w1 h1].
  rewrite paragraph_bind, H2.
  destruct (wrap _ (width doc) (bottomMargin doc)) as [w2 h2].
  rewrite paragraph_bind, H3.
  destruct (wrap _ (width doc) (bottomMargin doc)) as [w3 h3].
  cbn [snd]. rewrite <- !app_assoc. reflexivity.
Qed.

(** A loop whose body gives the same result at every turn and leaves
    the writer alone. *)
Lemma for_collect_const {A B} (body : A -> M B) self (b : B) :
  (forall x, body x self = Ok (b, self)) ->
  forall l data,
    for_collect l data body self
    = Ok (data ++ replicate (length l) b, self).
Proof.
  intros Hbody l. induction l as [| x l IH]; intros data; simpl.
  - now rewrite app_nil_r.
  - rewrite (bind_Ok _ _ _ _ _ (Hbody x)), IH, <- app_assoc. reflexivity.
Qed.

(** The page engine at work: the same footer on every page. *)
Lemma doc_build_ok self flowables :
  ready self ->
  accepted markup_error (footer_lines (lawfirm self)) ->
  engine_error (doc self) flowables = None ->
  doc_build later_pages engine_error flowables
    (_draw_footer markup_error wrap) (_draw_footer markup_error wrap) self
  = Ok (replicate (S (later_pages (doc self) flowables))
          (footer_ops wrap (doc self) (footer_lines (lawfirm self))),
        set_contents self []).
Proof.
  intros Hr Ha He. unfold doc_build.
  rewrite (bind_Ok get_self _ self self self eq_refl).
  rewrite (bind_Ok _ _ _ _ _ (draw_footer_ok self [] (doc self) Hr Ha)).
  rewrite app_nil_l.
  erewrite bind_Ok; cycle 1.
  { apply for_collect_const. intros _.
    rewrite (draw_footer_ok self [] (doc self) Hr Ha). reflexivity. }
  rewrite He, app_nil_l, length_replicate. reflexivity.
Qed.

Lemma build_ok now month_name self :
  ready self ->
  MONTH_TO_FRENCH !! datetime.month now = Some month_name ->
  Fees.times (fees self) <> [] ->
  accepted markup_error
    (paragraphs (built_story float_repr now month_name self)) ->
  accepted markup_error (footer_lines (lawfirm self)) ->
  let flowables :=
    contents self ++ built_story float_repr now month_name self in
  engine_error (doc self) flowables = None ->
  build markup_error empty_table_message wrap float_repr later_pages
    engine_error now self
  = Ok ({| story := flowables;
           onFirstPage := _draw_footer markup_error wrap;
           onLaterPages := _draw_footer markup_error wrap;
           pages :=
             replicate (S (later_pages (doc self) flowables))
               (footer_ops wrap (doc self) (footer_lines (lawfirm self)));
           stdout := "ReportLab PDF '" +:+ output_path self
                     +:+ "' generated successfully." |},
        set_contents self []).
Proof.
  intros Hr Hm Hne Ha Hf flowables He. unfold build.
  rewrite (bind_Ok get_self _ self self self eq_refl).
  unfold built_story, after_collaborators in Ha.
  split_accepted Ha.
  call ltac:(fun st =>
    exact (lawyer_title_appends (LawFirm.principal_lawyer (lawfirm self))
             st Hr Ha0)).
  call ltac:(fun st => exact (appends_spacer (F.lit 1.5) st)).
  call ltac:(fun st => exact (collaborators_part_appends st Hr Ha2)).
  call ltac:(fun st => exact (client_address_appends (client self) st Hr Ha3)).
  call ltac:(fun st => exact (appends_spacer (F.of_int 3) st)).
  call ltac:(fun st =>
    exact (place_and_date_appends "Paris" now month_name st Hr Hm Ha5)).
  call ltac:(fun st => exact (appends_spacer (F.lit 0.5) st)).
  call ltac:(fun st =>
    exact (invoice_number_rectangle_appends "2025-121" st Hr Ha7)).
  call ltac:(fun st => exact (appends_spacer (F.of_int 2) st)).
  call ltac:(fun st => exact (detail_fees_appends st Hr Hne Ha9)).
  call ltac:(fun st => exact (appends_spacer (F.of_int 2) st)).
  call ltac:(fun st => exact (final_appends st Hr Ha)).
  match goal with
  | |- (get_self ≫= _) ?st = _ =>
      rewrite (bind_Ok get_self _ st st st eq_refl); cbv zeta;
      assert (Hst : contents st = flowables)
  end.
  { subst flowables. unfold extended, built_story, after_collaborators.
    cbn [contents set_contents]. rewrite <- !app_assoc. reflexivity. }
  rewrite Hst.
  erewrite bind_Ok; cycle 1.
  { apply doc_build_ok; [exact Hr | exact Hf | exact He]. }
  reflexivity.
Qed.

End Engine.

End Run.

(** ** The fee table *)

(** C1. For a time entry of non-negative duration, row [i] of the fee
    table shows, in its third cell, [hours] and [minutes] padded to two
    digits, where [duration_seconds] is what [total_seconds()] returns,
    [hours = floor(duration_seconds / 3600)] and
    [minutes = floor((duration_seconds mod 3600) / 60)]; hence
    [hours*3600 + minutes*60 <= duration_seconds
     < hours*3600 + (minutes+1)*60]: the seconds are dropped, never
    rounded up.  The table is the one [list_fee_table] appends when the
    page engine accepts the texts of the rows. *)
Theorem fee_table_duration_decomposition
    (markup_error : string -> ParagraphStyle -> option string)
    (empty_table_message : string)
    (self : W.t) (i : nat) (time : Time.t) :
  Spec.ready self ->
  Fees.times (W.fees self) !! i = Some time ->
  Spec.accepted markup_error (Spec.paragraphs [Spec.fee_table (W.fees self)]) ->
  timedelta.normalized (Time.duration time) = true ->
  0 <= timedelta.total_microseconds (Time.duration time) ->
  exists (s : Q) (hours minutes : Z) rows widths heights ts c0 c1 c3,
    timedelta.total_seconds (Time.duration time) = F.Finite s
    /\ W.list_fee_table markup_error empty_table_message self
       = Ok (tt, W.set_contents self
                   (W.contents self ++ [Table rows widths heights ts]))
    /\ rows !! i
       = Some [ c0; c1;
                Paragraph
                  (zfill 2 (pretty hours) +:+ ":" +:+ zfill 2 (pretty minutes))
                  (Spec.resolve RIGHT BOLD 12);
                c3 ]
    /\ hours = Qfloor (s / 3600)
    /\ minutes = Qfloor ((s - 3600 * inject_Z hours) / 60)
    /\ 0 <= hours /\ 0 <= minutes < 60
    /\ (inject_Z (hours * 3600 + minutes * 60) <= s
        < inject_Z (hours * 3600 + (minutes + 1) * 60))%Q.
Proof.
  intros Hr Hi Ha Hn Hpos.
  destruct (total_seconds_nonneg _ Hn Hpos) as (s & Hs & Hs0 & Hs1).
  assert (Hs2 : (0 <= s < 2 ^ 53)%Q).
  { split; [exact Hs0 |].
    apply Qle_lt_trans with 86400000000000%Q; [exact Hs1 | reflexivity]. }
  assert (Hne : Fees.times (W.fees self) <> []).
  { intros E. rewrite E in Hi. discriminate Hi. }
  pose proof (Run.list_fee_table_appends markup_error empty_table_message
                self Hr Hne Ha) as Happ.
  unfold Spec.appends, Spec.extended, Spec.fee_table in Happ.
  exists s, (Qfloor (s / 3600)),
    (Qfloor ((s - 3600 * inject_Z (Qfloor (s / 3600))) / 60)).
  do 4 eexists. exists (Paragraph "" (Spec.resolve LEFT BASE 12)).
  do 2 eexists.
  split; [exact Hs |]. split; [exact Happ |].
  pose proof (minutes_range s) as Hm. pose proof (hours_nonneg s Hs0) as Hh.
  split; [| repeat split; try (exact Hh || apply Hm || apply duration_between)].
  unfold Spec.fee_rows. rewrite list_lookup_fmap, Hi. simpl.
  unfold Spec.fee_row, Spec.seconds. rewrite Hs.
  rewrite (hours_text_nonneg s Hs2), (minutes_text_nonneg s Hs2).
  reflexivity.
Qed.

Lemma fee_table_duration_decomposition_witness :
  let time :=
    {| Time.description := "An element done in 3 hours and 12 minutes";
       Time.duration := timedelta.make 3 12 0;
       Time.date := {| date.year := 2025; date.month := 5; date.day := 3 |}
    |} in
  exists (s : Q) (hours minutes : Z) rows widths heights ts c0 c1 c3,
    timedelta.total_seconds (Time.duration time) = F.Finite s
    /\ W.list_fee_table Main.markup_error Main.empty_table_message Main.writer
       = Ok (tt, W.set_contents Main.writer
                   (W.contents Main.writer ++ [Table rows widths heights ts]))
    /\ rows !! 3%nat
       = Some [ c0; c1;
                Paragraph
                  (zfill 2 (pretty hours) +:+ ":" +:+ zfill 2 (pretty minutes))
                  (Spec.resolve RIGHT BOLD 12);
                c3 ]
    /\ hours = Qfloor (s / 3600)
    /\ minutes = Qfloor ((s - 3600 * inject_Z hours) / 60)
    /\ 0 <= hours /\ 0 <= minutes < 60
    /\ (inject_Z (hours * 3600 + minutes * 60) <= s
        < inject_Z (hours * 3600 + (minutes + 1) * 60))%Q.
Proof.
  apply (fee_table_duration_decomposition Main.markup_error
           Main.empty_table_message Main.writer 3).
  - reflexivity.
  - reflexivity.
  - vm_compute. reflexivity.
  - reflexivity.
  - vm_compute. discriminate.
Defined.

(** ** Totals *)

(** C2. The totals block shows, under two decimals, [subtotal], [vat] and
    [total], where [subtotal] is the sum over the entries of the
    price [(duration_seconds / 3600) * rate], [vat = subtotal * 0.20] and
    [total = subtotal + vat], all in binary64 and none rounded to cents:
    only the display is.  This is so for every schedule, the empty one
    included; the block is appended when the page engine accepts its
    texts. *)
Theorem totals_from_unrounded_prices
    (markup_error : string -> ParagraphStyle -> option string)
    (empty_table_message : string) (self : W.t) :
  Spec.ready self ->
  Spec.accepted markup_error
    (Spec.paragraphs [Spec.totals_table (W.fees self)]) ->
  let f := W.fees self in
  let subtotal :=
    F.sum
      (map (fun time =>
              F.mul
                (F.div_int (timedelta.total_seconds (Time.duration time))
                   3600)
                (Fees.price f))
         (Fees.times f)) in
  let vat := F.mul subtotal (F.lit 0.20) in
  let total := F.add subtotal vat in
  let label := Spec.resolve LEFT BOLD 12 in
  let value := Spec.resolve RIGHT BOLD 12 in
  exists duration_row empty widths ts,
    W.show_total markup_error empty_table_message self
    = Ok (tt, W.set_contents self
                (W.contents self
                 ++ [ Table
                        [ duration_row;
                          [ empty; Paragraph "Honoraires H.T." label;
                            Paragraph (F.format_f 0 2 subtotal +:+ " €")
                              value ];
                          [ empty; Paragraph "TVA 20%" label;
                            Paragraph (F.format_f 0 2 vat +:+ " €") value ];
                          [ empty; Paragraph "TOTAL T.T.C. DU" label;
                            Paragraph (F.format_f 0 2 total +:+ " €")
                              value ] ]
                        widths None ts ])).
Proof.
  intros Hr Ha f subtotal vat total label value.
  do 4 eexists.
  exact (Run.show_total_appends markup_error empty_table_message self Hr Ha).
Qed.

Lemma totals_from_unrounded_prices_witness :
  exists duration_row empty widths ts,
    W.show_total Main.markup_error Main.empty_table_message Main.writer
    = Ok (tt, W.set_contents Main.writer
                [ Table
                    [ duration_row;
                      [ empty;
                        Paragraph "Honoraires H.T." (Spec.resolve LEFT BOLD 12);
                        Paragraph "1345.00 €" (Spec.resolve RIGHT BOLD 12) ];
                      [ empty;
                        Paragraph "TVA 20%" (Spec.resolve LEFT BOLD 12);
                        Paragraph "269.00 €" (Spec.resolve RIGHT BOLD 12) ];
                      [ empty;
                        Paragraph "TOTAL T.T.C. DU" (Spec.resolve LEFT BOLD 12);
                        Paragraph "1614.00 €" (Spec.resolve RIGHT BOLD 12) ] ]
                    widths None ts ]).
Proof.
  apply (totals_from_unrounded_prices Main.markup_error
           Main.empty_table_message Main.writer eq_refl).
  vm_compute. reflexivity.
Defined.

(** The amounts are binary64 values: a quarter of an hour at 400.5 makes
    100.125, whose fifth is the float next above 20.025 and prints as
    20.03; half an hour at 100.01 makes the float next above 50.005 and
    prints as 50.01. *)
Example amounts_are_binary64 :
  let day := {| date.year := 2025; date.month := 3; date.day := 24 |} in
  let quarter :=
    {| Time.description := "Appel"; Time.duration := timedelta.make 0 15 0;
       Time.date := day |} in
  let half :=
    {| Time.description := "Appel"; Time.duration := timedelta.make 0 30 0;
       Time.date := day |} in
  Spec.amount_cell
    (Spec.vat {| Fees.times := [quarter]; Fees.price := F.lit 400.5 |})
  = Paragraph "20.03 €" (Spec.resolve RIGHT BOLD 12)
  /\ Spec.amount_cell
       (Spec.subtotal {| Fees.times := [half]; Fees.price := F.lit 100.01 |})
     = Paragraph "50.01 €" (Spec.resolve RIGHT BOLD 12).
Proof. split; vm_compute; reflexivity. Qed.

(** The amounts of the rows are rounded for display one by one; the
    subtotal is not the sum of what the rows show but the display of the
    sum: three entries of ten minutes at 100 an hour show 16.67 each and
    50.00 in total. *)
Example rounding_is_not_accumulated :
  let entry :=
    {| Time.description := "Courriel";
       Time.duration := timedelta.make 0 10 0;
       Time.date := {| date.year := 2025; date.month := 3; date.day := 24 |}
    |} in
  let f := {| Fees.times := [entry; entry; entry];
              Fees.price := F.of_int 100 |} in
  Spec.amount_cell (Spec.line_price (F.of_int 100) entry)
  = Paragraph "16.67 €" (Spec.resolve RIGHT BOLD 12)
  /\ Spec.amount_cell (Spec.subtotal f)
     = Paragraph "50.00 €" (Spec.resolve RIGHT BOLD 12)
  /\ Spec.amount_cell (Spec.vat f)
     = Paragraph "10.00 €" (Spec.resolve RIGHT BOLD 12)
  /\ Spec.amount_cell (Spec.total f)
     = Paragraph "60.00 €" (Spec.resolve RIGHT BOLD 12).
Proof. repeat split; vm_compute; reflexivity. Qed.

(** C10. The subtotal that the totals block shows is the sum, from zero
    and in entry order, of the prices that the rows of the fee table
    show: row by row the fourth cell is the price
    [(duration_seconds / 3600) * rate] of the entry under two decimals,
    and the subtotal cell is the binary64 sum of these very prices under
    two decimals.  For the empty schedule the sum is zero and there is no
    row: the page engine refuses the table. *)
Theorem subtotal_is_sum_of_row_prices
    (markup_error : string -> ParagraphStyle -> option string)
    (empty_table_message : string) (self : W.t) :
  Spec.ready self ->
  Spec.accepted markup_error (Spec.paragraphs [Spec.fee_table (W.fees self)]) ->
  Spec.accepted markup_error
    (Spec.paragraphs [Spec.totals_table (W.fees self)]) ->
  let f := W.fees self in
  let prices :=
    map (fun time =>
           F.mul
             (F.div_int (timedelta.total_seconds (Time.duration time)) 3600)
             (Fees.price f))
      (Fees.times f) in
  exists first_row empty label third_row fourth_row widths' ts',
    W.show_total markup_error empty_table_message self
    = Ok (tt, W.set_contents self
                (W.contents self
                 ++ [ Table
                        [ first_row;
                          [ empty; label;
                            Spec.amount_cell (fold_left F.add prices
                                                (F.Finite 0)) ];
                          third_row; fourth_row ]
                        widths' None ts' ]))
    /\ match Fees.times f with
       | [] =>
           W.list_fee_table markup_error empty_table_message self
           = Raise (ValueError empty_table_message)
       | _ :: _ =>
           exists rows widths heights ts,
             W.list_fee_table markup_error empty_table_message self
             = Ok (tt, W.set_contents self
                         (W.contents self ++ [Table rows widths heights ts]))
             /\ Forall2
                  (fun row price =>
                     exists c0 c1 c2,
                       row = [c0; c1; c2; Spec.amount_cell price])
                  rows prices
       end.
Proof.
  intros Hr Ha Ha' f prices.
  do 7 eexists. split.
  - exact (Run.show_total_appends markup_error empty_table_message self Hr
             Ha').
  - rewrite (Run.list_fee_table_result markup_error empty_table_message self
               Hr).
    unfold Spec.accepted in Ha.
    cbn [Spec.paragraphs flat_map Spec.paragraphs_of Spec.fee_table] in Ha.
    rewrite app_nil_r in Ha. rewrite Ha.
    subst prices f. unfold Spec.fee_table, Spec.fee_rows.
    destruct (Fees.times (W.fees self)) as [| time times] eqn:E;
      [reflexivity |].
    do 4 eexists. split; [reflexivity |].
    apply Forall2_fmap, Forall_Forall2_diag, Forall_forall.
    intros time' _. do 3 eexists. reflexivity.
Qed.

Lemma subtotal_is_sum_of_row_prices_witness :
  exists first_row empty label third_row fourth_row widths' ts',
    W.show_total Main.markup_error Main.empty_table_message Main.writer
    = Ok (tt, W.set_contents Main.writer
                [ Table
                    [ first_row;
                      [ empty; label;
                        Paragraph "1345.00 €" (Spec.resolve RIGHT BOLD 12) ];
                      third_row; fourth_row ]
                    widths' None ts' ])
    /\ exists rows widths heights ts,
         W.list_fee_table Main.markup_error Main.empty_table_message
           Main.writer
         = Ok (tt, W.set_contents Main.writer [Table rows widths heights ts])
         /\ Forall2
              (fun row price =>
                 exists c0 c1 c2,
                   row = [c0; c1; c2; Spec.amount_cell price])
              rows
              (map (fun time =>
                      F.mul
                        (F.div_int
                           (timedelta.total_seconds (Time.duration time))
                           3600)
                        (F.of_int 300))
                 (Fees.times Main.fees)).
Proof.
  apply (subtotal_is_sum_of_row_prices Main.markup_error
           Main.empty_table_message Main.writer eq_refl).
  - vm_compute. reflexivity.
  - vm_compute. reflexivity.
Defined.

(** A duration of zero at a negative rate: the row shows -0.00, and the
    subtotal, which starts from zero, 0.00. *)
Example negative_zero_amount :
  let entry :=
    {| Time.description := "Appel"; Time.duration := timedelta.make 0 0 0;
       Time.date := {| date.year := 2025; date.month := 3; date.day := 24 |}
    |} in
  let f := {| Fees.times := [entry]; Fees.price := F.of_int (-300) |} in
  Spec.amount_cell (Spec.line_price (Fees.price f) entry)
  = Paragraph "-0.00 €" (Spec.resolve RIGHT BOLD 12)
  /\ Spec.amount_cell (Spec.subtotal f)
     = Paragraph "0.00 €" (Spec.resolve RIGHT BOLD 12).
Proof. split; vm_compute; reflexivity. Qed.

(** ** The content sequence *)

Lemma month_has_name (m : Z) :
  1 <= m <= 12 -> exists name, MONTH_TO_FRENCH !! m = Some name.
Proof.
  intros Hm.
  assert (H : m = 1 \/ m = 2 \/ m = 3 \/ m = 4 \/ m = 5 \/ m = 6 \/ m = 7
              \/ m = 8 \/ m = 9 \/ m = 10 \/ m = 11 \/ m = 12) by lia.
  repeat (destruct H as [-> | H]; [eexists; vm_compute; reflexivity |]).
  subst m. eexists. vm_compute. reflexivity.
Qed.

Lemma heading_not_after_collaborators title c place day month_name year
    number rate_text f :
  Spec.collaborators_heading
  ∉ Spec.after_collaborators title c place day month_name year number
      rate_text f.
Proof.
  unfold Spec.after_collaborators, Spec.client_block, Spec.fee_detail_blocks,
    Spec.fee_heading_blocks, Spec.closing_blocks, Spec.collaborators_heading,
    Spec.place_and_date_line, Spec.invoice_number_box, Spec.fee_table,
    Spec.totals_table, Spec.gap.
  intros H. rewrite !elem_of_app, !elem_of_cons, !elem_of_nil in H.
  repeat (destruct H as [H | H]);
    try discriminate H; try (injection H; cbn; intros; discriminate);
    try destruct H.
Qed.

Lemma heading_not_in_title name :
  Spec.collaborators_heading
  ∉ (Spec.title_blocks name ++ [Spec.gap (F.lit 1.5)]).
Proof.
  unfold Spec.title_blocks, Spec.collaborators_heading, Spec.gap.
  intros H. rewrite !elem_of_app, !elem_of_cons, !elem_of_nil in H.
  repeat (destruct H as [H | H]);
    try discriminate H; try (injection H; cbn; intros; discriminate);
    try destruct H.
Qed.

(** C4. In the content sequence of a build, the collaborators block
    (heading, one line per name, closing caption) is present if and only
    if the list of collaborators is not empty; when it is present its
    caption is the singular one if and only if there is exactly one name,
    and the plural one if and only if there are two or more.  The build
    is one that reaches the page engine: the schedule has an entry and
    the parser accepts the texts. *)
Theorem collaborators_block_iff_nonempty
    (markup_error : string -> ParagraphStyle -> option string)
    (empty_table_message : string)
    (wrap : Paragraph_t -> F.t -> F.t -> F.t * F.t)
    (float_repr : F.t -> string)
    (later_pages : DocTemplate -> list Flowable -> nat)
    (engine_error : DocTemplate -> list Flowable -> option exn)
    (out : string) (c : Client.t) (l : LawFirm.t) (f : Fees.t)
    (now : datetime.t) (month_name : string) :
  let self := W.__init__ out c l f in
  let blocks := Spec.built_story float_repr now month_name self in
  MONTH_TO_FRENCH !! datetime.month now = Some month_name ->
  Fees.times f <> [] ->
  Spec.accepted markup_error (Spec.paragraphs blocks) ->
  Spec.accepted markup_error (Spec.footer_lines l) ->
  engine_error (W.doc self) blocks = None ->
  let names := LawFirm.collaborators l in
  let before :=
    Spec.title_blocks (LawFirm.principal_lawyer l)
    ++ [Spec.gap (F.lit 1.5)] in
  exists b self',
    W.build markup_error empty_table_message wrap float_repr later_pages
      engine_error now self
    = Ok (b, self')
    /\ (Spec.collaborators_heading ∈ W.story b <-> names <> [])
    /\ (names = [] ->
        exists rest,
          W.story b = before ++ rest
          /\ (Spec.collaborators_heading ∉ rest))
    /\ (names <> [] ->
        exists caption rest,
          W.story b
          = before ++ Spec.collaborators_block names caption ++ rest
          /\ (Spec.collaborators_heading ∉ rest)
          /\ (caption = Spec.singular_caption <-> length names = 1%nat)
          /\ (caption = Spec.plural_caption <-> (2 <= length names)%nat)).
Proof.
  intros self blocks Hm Hne Ha Hf He names before.
  pose proof (Run.build_ok markup_error empty_table_message wrap float_repr
                later_pages engine_error now month_name self eq_refl Hm Hne
                Ha Hf He) as Hb.
  do 2 eexists. split; [exact Hb |]. subst blocks.
  cbn [W.story]. unfold Spec.built_story.
  change (W.contents self) with (@nil Flowable).
  change (LawFirm.collaborators (W.lawfirm self)) with names.
  change (LawFirm.principal_lawyer (W.lawfirm self))
    with (LawFirm.principal_lawyer l).
  rewrite app_nil_l, app_assoc. fold before.
  match goal with
  | |- context [Spec.after_collaborators ?t ?c ?p ?d ?m ?y ?n ?r ?f] =>
      pose proof (heading_not_after_collaborators t c p d m y n r f) as Hafter;
      set (after := Spec.after_collaborators t c p d m y n r f) in *
  end.
  pose proof (heading_not_in_title (LawFirm.principal_lawyer l)) as Hbefore.
  fold before in Hbefore. clear Ha Hb He.
  destruct names as [| a names'] eqn:E.
  - split; [| split].
    + split; [| congruence]. intros H. exfalso.
      rewrite !elem_of_app, elem_of_nil in H. tauto.
    + intros _. exists after. split; [reflexivity | exact Hafter].
    + congruence.
  - split; [| split].
    + split; [discriminate |]. intros _.
      rewrite !elem_of_app. right. left. left. apply list_elem_of_here.
    + discriminate.
    + intros _. do 2 eexists. split; [| split; [| split]].
      * rewrite <- app_assoc. reflexivity.
      * intros H. rewrite elem_of_app, list_elem_of_singleton in H.
        destruct H as [H | H]; [discriminate H | tauto].
      * case_decide as Hlen; [tauto |]. split; [discriminate | tauto].
      * case_decide as Hlen.
        -- split; [discriminate |]. simpl in Hlen |- *. lia.
        -- split; [| reflexivity]. intros _. simpl in Hlen |- *. lia.
Qed.

Lemma collaborators_block_iff_nonempty_witness :
  let names := ["Gerard LOULOU"; "Francesca MARTINI"] in
  let before :=
    Spec.title_blocks "Jean-Pierre Machin" ++ [Spec.gap (F.lit 1.5)] in
  exists b self',
    W.build Main.markup_error Main.empty_table_message Main.wrap
      Main.float_repr Main.later_pages Main.engine_error Main.now
      (W.__init__ "invoice.pdf" Main.client Main.lawfirm Main.fees)
    = Ok (b, self')
    /\ (Spec.collaborators_heading ∈ W.story b <-> names <> [])
    /\ (names = [] ->
        exists rest,
          W.story b = before ++ rest
          /\ (Spec.collaborators_heading ∉ rest))
    /\ (names <> [] ->
        exists caption rest,
          W.story b
          = before ++ Spec.collaborators_block names caption ++ rest
          /\ (Spec.collaborators_heading ∉ rest)
          /\ (caption = Spec.singular_caption <-> length names = 1%nat)
          /\ (caption = Spec.plural_caption <-> (2 <= length names)%nat)).
Proof.
  apply (collaborators_block_iff_nonempty Main.markup_error
           Main.empty_table_message Main.wrap Main.float_repr
           Main.later_pages Main.engine_error
           "invoice.pdf" Main.client Main.lawfirm Main.fees Main.now "juin").
  - reflexivity.
  - discriminate.
  - vm_compute. reflexivity.
  - vm_compute. reflexivity.
  - reflexivity.
Defined.

Lemma collaborators_block_styles names caption x :
  x ∈ Spec.collaborators_block names caption ->
  exists t, x = Para (Paragraph t (Spec.resolve LEFT ITALIC 12))
            \/ x = Para (Paragraph t (Spec.resolve LEFT BASE 12)).
Proof.
  unfold Spec.collaborators_block, Spec.collaborators_heading.
  rewrite elem_of_cons, elem_of_app, list_elem_of_fmap, list_elem_of_singleton.
  intros [-> | [(name & -> & _) | ->]]; eauto.
Qed.

(** Where a flowable of the story of a build can come from. *)
Lemma built_story_cases repr now month_name self x :
  x ∈ Spec.built_story repr now month_name self ->
  x ∈ Spec.title_blocks (LawFirm.principal_lawyer (W.lawfirm self))
  \/ (exists h, x = Spacer (F.of_int 1) h)
  \/ (exists t, x = Para (Paragraph t (Spec.resolve LEFT ITALIC 12))
                \/ x = Para (Paragraph t (Spec.resolve LEFT BASE 12)))
  \/ x ∈ Spec.after_collaborators
           (if bool_decide (Client.gender (W.client self) = "M")
            then "Monsieur" else "Madame")
           (W.client self) "Paris" (datetime.day now) month_name
           (datetime.year now) "2025-121"
           (repr (Fees.price (W.fees self))) (W.fees self).
Proof.
  unfold Spec.built_story. rewrite !elem_of_app, list_elem_of_singleton.
  intros [H | [H | [H | H]]]; [tauto | unfold Spec.gap in H; eauto | | tauto].
  destruct (LawFirm.collaborators (W.lawfirm self)) as [| a names].
  - now apply elem_of_nil in H.
  - rewrite elem_of_app, list_elem_of_singleton in H.
    destruct H as [H | H]; [| unfold Spec.gap in H; eauto].
    right. right. left. eapply collaborators_block_styles, H.
Qed.

Lemma box_in_built_story repr now month_name self number :
  Spec.invoice_number_box number ∈ Spec.built_story repr now month_name self ->
  number = "2025-121".
Proof.
  intros H. apply built_story_cases in H.
  destruct H as [H | [[h H] | [[t [H | H]] | H]]];
    try discriminate H.
  - unfold Spec.title_blocks, Spec.gap in H.
    rewrite !elem_of_cons, elem_of_nil in H.
    repeat (destruct H as [H | H]); try discriminate H. destruct H.
  - unfold Spec.after_collaborators, Spec.client_block,
      Spec.fee_detail_blocks, Spec.fee_heading_blocks, Spec.closing_blocks,
      Spec.place_and_date_line, Spec.gap in H.
    rewrite !elem_of_app, !elem_of_cons, !elem_of_nil in H.
    repeat (destruct H as [H | H]); try (exfalso; exact H);
      try (apply (f_equal Spec.table_style) in H; discriminate H).
    apply (f_equal Spec.paragraphs_of) in H.
    unfold Spec.invoice_number_box in H.
    cbn [Spec.paragraphs_of concat app] in H. injection H as H.
    exact H.
Qed.

Lemma line_in_built_story repr now month_name self place d m y :
  Spec.place_and_date_line place d m y
  ∈ Spec.built_story repr now month_name self ->
  Spec.place_and_date_line place d m y
  = Spec.place_and_date_line "Paris" (datetime.day now) month_name
      (datetime.year now).
Proof.
  intros H. apply built_story_cases in H.
  destruct H as [H | [[h H] | [[t [H | H]] | H]]];
    try discriminate H.
  - unfold Spec.title_blocks, Spec.gap in H.
    rewrite !elem_of_cons, elem_of_nil in H.
    repeat (destruct H as [H | H]); try discriminate H. destruct H.
  - unfold Spec.after_collaborators, Spec.client_block,
      Spec.fee_detail_blocks, Spec.fee_heading_blocks, Spec.closing_blocks,
      Spec.invoice_number_box, Spec.fee_table, Spec.totals_table, Spec.gap
      in H.
    rewrite !elem_of_app, !elem_of_cons, !elem_of_nil in H.
    repeat (destruct H as [H | H]);
      try (exfalso; exact H); try discriminate H; try exact H.
Qed.

Lemma box_and_line_in_built_story repr now month_name self :
  Spec.invoice_number_box "2025-121"
  ∈ Spec.built_story repr now month_name self
  /\ Spec.place_and_date_line "Paris" (datetime.day now) month_name
       (datetime.year now)
     ∈ Spec.built_story repr now month_name self.
Proof.
  unfold Spec.built_story, Spec.after_collaborators.
  split; rewrite !elem_of_app, !list_elem_of_singleton; tauto.
Qed.

(** ** Presentation parameters *)

(** C6, as stated, fails: a caller who wants invoice number 2024-007,
    issued at Lyon on 15 janvier 2024, has no way to supply them; the
    story of the build holds neither that box nor that line. *)
Lemma build_ignores_supplied_triple :
  exists b self',
    W.build Main.markup_error Main.empty_table_message Main.wrap
      Main.float_repr Main.later_pages Main.engine_error Main.now
      Main.writer
    = Ok (b, self')
    /\ (Spec.invoice_number_box "2024-007" ∉ W.story b)
    /\ (Spec.place_and_date_line "Lyon" 15 "janvier" 2024 ∉ W.story b).
Proof.
  assert (Ha : Spec.accepted Main.markup_error
                 (Spec.paragraphs
                    (Spec.built_story Main.float_repr Main.now "juin"
                       Main.writer)))
    by (vm_compute; reflexivity).
  assert (Hne : Fees.times (W.fees Main.writer) <> []) by discriminate.
  assert (Hf : Spec.accepted Main.markup_error
                 (Spec.footer_lines (W.lawfirm Main.writer)))
    by (vm_compute; reflexivity).
  do 2 eexists. split.
  - exact (Run.build_ok Main.markup_error Main.empty_table_message Main.wrap
             Main.float_repr Main.later_pages Main.engine_error Main.now
             "juin" Main.writer eq_refl eq_refl Hne Ha Hf eq_refl).
  - cbn [W.story]. change (W.contents Main.writer) with (@nil Flowable).
    rewrite app_nil_l. split; intros H.
    + apply box_in_built_story in H. discriminate H.
    + apply line_in_built_story in H. discriminate H.
Qed.

(** C6, amended. [build] takes no presentation parameter: whatever the
    records, the story of a build that reaches the page engine holds the
    box of invoice number 2025-121 and no other, and the line
    [Paris, le <day> <french-month-name> <year>] of the clock reading and
    no other.  The two methods it calls do render what they are passed,
    when the parser accepts it: [invoice_number_rectangle number] boxes
    [FACTURE N°<number>] and [place_and_date place date] writes
    [<place>, le <day> <french-month-name> <year>]. *)
Theorem build_presentation_is_fixed
    (markup_error : string -> ParagraphStyle -> option string)
    (empty_table_message : string)
    (wrap : Paragraph_t -> F.t -> F.t -> F.t * F.t)
    (float_repr : F.t -> string)
    (later_pages : DocTemplate -> list Flowable -> nat)
    (engine_error : DocTemplate -> list Flowable -> option exn)
    (out : string) (c : Client.t) (l : LawFirm.t) (f : Fees.t)
    (now : datetime.t) (month_name : string) :
  let self := W.__init__ out c l f in
  let blocks := Spec.built_story float_repr now month_name self in
  MONTH_TO_FRENCH !! datetime.month now = Some month_name ->
  Fees.times f <> [] ->
  Spec.accepted markup_error (Spec.paragraphs blocks) ->
  Spec.accepted markup_error (Spec.footer_lines l) ->
  engine_error (W.doc self) blocks = None ->
  exists b self',
    W.build markup_error empty_table_message wrap float_repr later_pages
      engine_error now self
    = Ok (b, self')
    /\ Spec.invoice_number_box "2025-121" ∈ W.story b
    /\ Spec.place_and_date_line "Paris" (datetime.day now) month_name
         (datetime.year now) ∈ W.story b
    /\ (forall number,
          Spec.invoice_number_box number ∈ W.story b -> number = "2025-121")
    /\ (forall place d m y,
          Spec.place_and_date_line place d m y ∈ W.story b ->
          Spec.place_and_date_line place d m y
          = Spec.place_and_date_line "Paris" (datetime.day now) month_name
              (datetime.year now))
    /\ (forall number self,
          Spec.ready self ->
          Spec.accepted markup_error
            (Spec.paragraphs [Spec.invoice_number_box number]) ->
          W.invoice_number_rectangle markup_error empty_table_message number
            self
          = Ok (tt, W.set_contents self
                      (W.contents self ++ [Spec.invoice_number_box number])))
    /\ (forall place date name self,
          Spec.ready self ->
          MONTH_TO_FRENCH !! datetime.month date = Some name ->
          Spec.accepted markup_error
            (Spec.paragraphs
               [Spec.place_and_date_line place (datetime.day date) name
                  (datetime.year date)]) ->
          W.place_and_date markup_error place date self
          = Ok (tt, W.set_contents self
                      (W.contents self
                       ++ [Spec.place_and_date_line place (datetime.day date)
                             name (datetime.year date)]))).
Proof.
  intros self blocks Hm Hne Ha Hf He.
  pose proof (Run.build_ok markup_error empty_table_message wrap float_repr
                later_pages engine_error now month_name self eq_refl Hm Hne
                Ha Hf He) as Hb.
  do 2 eexists. split; [exact Hb |]. cbn [W.story].
  change (W.contents self) with (@nil Flowable). rewrite app_nil_l.
  destruct (box_and_line_in_built_story float_repr now month_name self)
    as [Hbox Hline].
  repeat split; try assumption.
  - intros number. apply box_in_built_story.
  - intros place d m y. apply line_in_built_story.
  - intros number self0. apply Run.invoice_number_rectangle_appends.
  - intros place date name self0. apply Run.place_and_date_appends.
Qed.

Lemma build_presentation_is_fixed_witness :
  exists b self',
    W.build Main.markup_error Main.empty_table_message Main.wrap
      Main.float_repr Main.later_pages Main.engine_error Main.now
      (W.__init__ "invoice.pdf" Main.client Main.lawfirm Main.fees)
    = Ok (b, self')
    /\ Spec.invoice_number_box "2025-121" ∈ W.story b
    /\ Spec.place_and_date_line "Paris" 1 "juin" 2025 ∈ W.story b
    /\ (forall number,
          Spec.invoice_number_box number ∈ W.story b -> number = "2025-121")
    /\ (forall place d m y,
          Spec.place_and_date_line place d m y ∈ W.story b ->
          Spec.place_and_date_line place d m y
          = Spec.place_and_date_line "Paris" 1 "juin" 2025)
    /\ (forall number self,
          Spec.ready self ->
          Spec.accepted Main.markup_error
            (Spec.paragraphs [Spec.invoice_number_box number]) ->
          W.invoice_number_rectangle Main.markup_error
            Main.empty_table_message number self
          = Ok (tt, W.set_contents self
                      (W.contents self ++ [Spec.invoice_number_box number])))
    /\ (forall place date name self,
          Spec.ready self ->
          MONTH_TO_FRENCH !! datetime.month date = Some name ->
          Spec.accepted Main.markup_error
            (Spec.paragraphs
               [Spec.place_and_date_line place (datetime.day date) name
                  (datetime.year date)]) ->
          W.place_and_date Main.markup_error place date self
          = Ok (tt, W.set_contents self
                      (W.contents self
                       ++ [Spec.place_and_date_line place (datetime.day date)
                             name (datetime.year date)]))).
Proof.
  apply (build_presentation_is_fixed Main.markup_error
           Main.empty_table_message Main.wrap Main.float_repr
           Main.later_pages Main.engine_error
           "invoice.pdf" Main.client Main.lawfirm Main.fees Main.now "juin").
  - reflexivity.
  - discriminate.
  - vm_compute. reflexivity.
  - vm_compute. reflexivity.
  - reflexivity.
Defined.

(** ** Styles *)

(** C7. Font selection returns, for each of the four emphasis values, the
    name of the font resource registered for it, and fails with a
    [ValueError] on every other value: nothing is defaulted. *)
Theorem font_from_style_exhaustive (style : pyobj) (self : W.t) :
  match style with
  | ObjFontStyle emphasis =>
      W.font_from_style style self = Ok (Spec.font emphasis, self)
      /\ (Spec.font emphasis, Spec.font_file emphasis) ∈ registered_fonts
  | _ =>
      W.font_from_style style self
      = Raise (ValueError ("Invalid font style: " +:+ pyobj_str style))
  end.
Proof.
  destruct style as [emphasis | a | s |]; try reflexivity.
  destruct emphasis; (split; [reflexivity |]);
    unfold registered_fonts; set_solver.
Qed.

(** The four names are pairwise distinct: one resource per emphasis. *)
Lemma font_injective (e1 e2 : FontStyle) :
  Spec.font e1 = Spec.font e2 -> e1 = e2.
Proof. destruct e1, e2; simpl; intros H; congruence. Qed.

(** C9. Resolving the same (alignment, emphasis, size) triple twice in a
    row yields two descriptors with the same [fontName], [fontSize] and
    [alignment], and leaves the writer as it was; the descriptor does not
    depend on what the writer has accumulated. *)
Theorem style_is_pure
    (self : W.t) (a : Alignment) (emphasis : FontStyle) (size : Q) :
  Spec.ready self ->
  exists d1 d2,
    (W.style a emphasis size ≫= fun d1 =>
     W.style a emphasis size ≫= fun d2 => mret (d1, d2)) self
    = Ok ((d1, d2), self)
    /\ fontName d1 = fontName d2
    /\ fontSize d1 = fontSize d2
    /\ alignment d1 = alignment d2
    /\ forall contents,
         W.style a emphasis size (W.set_contents self contents)
         = Ok (d1, W.set_contents self contents).
Proof.
  intros Hr. exists (Spec.resolve a emphasis size), (Spec.resolve a emphasis size).
  split; [| repeat split].
  - rewrite (Run.bind_Ok _ _ _ _ _ (Run.style_ok a emphasis size self Hr)).
    rewrite (Run.bind_Ok _ _ _ _ _ (Run.style_ok a emphasis size self Hr)).
    reflexivity.
  - intros contents. apply Run.style_ok. exact Hr.
Qed.

Lemma style_is_pure_witness :
  exists d1 d2,
    (W.style RIGHT BOLD 12 ≫= fun d1 =>
     W.style RIGHT BOLD 12 ≫= fun d2 => mret (d1, d2)) Main.writer
    = Ok ((d1, d2), Main.writer)
    /\ fontName d1 = fontName d2
    /\ fontSize d1 = fontSize d2
    /\ alignment d1 = alignment d2
    /\ forall contents,
         W.style RIGHT BOLD 12 (W.set_contents Main.writer contents)
         = Ok (d1, W.set_contents Main.writer contents).
Proof. exact (style_is_pure Main.writer RIGHT BOLD 12 eq_refl). Defined.

(** ** The data model *)

(** C5. A client is constructed only with gender tag M or F; any other
    tag is rejected with a validation error.  For a constructed client
    the first line of the address block is [Monsieur <name>] when the tag
    is M and [Madame <name>] when it is F; the block is appended when the
    parser accepts its three lines. *)
Theorem honorific_mapping
    (markup_error : string -> ParagraphStyle -> option string)
    (self : W.t) (name gender city zip_code adress : string) :
  Spec.ready self ->
  match Client.new name gender city zip_code adress with
  | Ok c =>
      (gender = "M" \/ gender = "F")
      /\ exists title,
           (gender = "M" -> title = "Monsieur")
           /\ (gender = "F" -> title = "Madame")
           /\ (Spec.accepted markup_error
                 (Spec.paragraphs (Spec.client_block title c)) ->
               exists rest,
                 W.client_address markup_error c self
                 = Ok (tt, W.set_contents self
                             (W.contents self
                              ++ Para (Paragraph (title +:+ " " +:+ name)
                                         (Spec.resolve RIGHT BOLD 12))
                                 :: rest)))
  | Raise e =>
      gender <> "M" /\ gender <> "F" /\ e = ValidationError "gender"
  end.
Proof.
  intros Hr. unfold Client.new. case_bool_decide as Hg.
  - split; [exact Hg |].
    set (c := {| Client.name := name; Client.gender := gender;
                 Client.city := city; Client.zip_code := zip_code;
                 Client.adress := adress |}).
    exists (if bool_decide (gender = "M") then "Monsieur" else "Madame").
    split; [intros ->; reflexivity |].
    split; [intros ->; reflexivity |].
    intros Ha.
    pose proof (Run.client_address_appends markup_error c self Hr Ha) as H.
    unfold Spec.appends, Spec.extended, Spec.client_block in H.
    cbn [Client.gender Client.name c] in H.
    eexists. exact H.
  - split; [| split]; [intros -> | intros -> | reflexivity]; apply Hg; tauto.
Qed.

Lemma honorific_mapping_witness :
  exists rest,
    W.client_address Main.markup_error
      {| Client.name := "Jane DOE"; Client.gender := "F";
         Client.city := "Paris"; Client.zip_code := "75000";
         Client.adress := "123 Rue de la Paix" |}
      Main.writer
    = Ok (tt, W.set_contents Main.writer
                (W.contents Main.writer
                 ++ Para (Paragraph ("Madame" +:+ " " +:+ "Jane DOE")
                            (Spec.resolve RIGHT BOLD 12))
                    :: rest)).
Proof.
  destruct (honorific_mapping Main.markup_error Main.writer "Jane DOE" "F"
              "Paris" "75000" "123 Rue de la Paix" eq_refl)
    as [_ (title & _ & Hf & H)].
  rewrite (Hf eq_refl) in H. apply H. vm_compute. reflexivity.
Defined.

(** C3, as stated, fails: [timedelta(seconds=-1)] and the rate -300 are
    taken by the two constructors, and the build that follows runs to its
    end. *)
Lemma negative_duration_and_rate_are_accepted :
  let d := {| timedelta.days := -1; timedelta.seconds := 86399;
              timedelta.microseconds := 0 |} in
  let day := {| date.year := 2025; date.month := 3; date.day := 24 |} in
  timedelta.normalized d = true
  /\ F.ltb (timedelta.total_seconds d) (F.of_int 0) = true
  /\ F.ltb (F.of_int (-300)) (F.of_int 0) = true
  /\ exists entry schedule b self',
       Time.new "Courriel" d day = Ok entry
       /\ Fees.new [entry] (F.of_int (-300)) = Ok schedule
       /\ W.build Main.markup_error Main.empty_table_message Main.wrap
            Main.float_repr Main.later_pages Main.engine_error Main.now
            (W.__init__ "invoice.pdf" Main.client Main.lawfirm schedule)
          = Ok (b, self').
Proof.
  intros d day. repeat split.
  do 4 eexists. split; [reflexivity |]. split; [reflexivity |].
  apply (Run.build_ok Main.markup_error Main.empty_table_message Main.wrap
           Main.float_repr Main.later_pages Main.engine_error Main.now "juin"
           (W.__init__ _ _ _ _) eq_refl eq_refl).
  - discriminate.
  - vm_compute. reflexivity.
  - vm_compute. reflexivity.
  - reflexivity.
Qed.

(** C3, amended. The constructors of a time entry and of a fee schedule
    accept every duration and every rate, negative ones included: neither
    is validated.  The fee calculator has no error condition of its own:
    what [list_fee_table] and [show_total] compute never fails, and the
    only errors are those of the page engine when the blocks are made,
    the [ValueError] of the first text whose markup the parser rejects
    and, for the fee table, the [ValueError] of a table without a row
    when the schedule is empty. *)
Theorem durations_and_rates_are_not_validated
    (markup_error : string -> ParagraphStyle -> option string)
    (empty_table_message : string)
    (description : string) (duration : timedelta.t) (day : date.t)
    (times : list Time.t) (price : F.t)
    (out : string) (c : Client.t) (l : LawFirm.t) (f : Fees.t)
    (contents : list Flowable) :
  Time.new description duration day
  = Ok {| Time.description := description; Time.duration := duration;
          Time.date := day |}
  /\ Fees.new times price = Ok {| Fees.times := times; Fees.price := price |}
  /\ (let self := W.set_contents (W.__init__ out c l f) contents in
      W.list_fee_table markup_error empty_table_message self
      = match Spec.first_error markup_error
                (Spec.paragraphs [Spec.fee_table f]) with
        | Some msg => Raise (ValueError msg)
        | None =>
            match Fees.times f with
            | [] => Raise (ValueError empty_table_message)
            | _ :: _ =>
                Ok (tt, W.set_contents self (contents ++ [Spec.fee_table f]))
            end
        end
      /\ W.show_total markup_error empty_table_message self
         = match Spec.first_error markup_error
                   (Spec.paragraphs [Spec.totals_table f]) with
           | Some msg => Raise (ValueError msg)
           | None =>
               Ok (tt, W.set_contents self
                         (contents ++ [Spec.totals_table f]))
           end).
Proof.
  split; [reflexivity |]. split; [reflexivity |].
  intros self. split.
  - rewrite (Run.list_fee_table_result markup_error empty_table_message self
               eq_refl).
    cbn [Spec.paragraphs flat_map Spec.paragraphs_of Spec.fee_table].
    rewrite app_nil_r. reflexivity.
  - exact (Run.show_total_result markup_error empty_table_message self
             eq_refl).
Qed.

(** ** The footer *)

(** C8. On any page geometry the footer callback draws exactly three
    lines between saving and restoring the canvas state: with
    [y0 = bottomMargin / 2], line 1 at [y0 + height(line1) * 1.5], line 2
    at [y0 + height(line1) * 0.5] and line 3 at
    [y0 - height(line2) * 0.5], each at the left margin and each sum and
    product in binary64; and [build] registers this one callback for the
    first page and for the later pages, so that every page of a build
    carries these three lines.  The callback draws when the parser
    accepts the three lines, and the pages are those of a build that the
    page engine completes. *)
Theorem footer_lines_placement
    (markup_error : string -> ParagraphStyle -> option string)
    (empty_table_message : string)
    (wrap : Paragraph_t -> F.t -> F.t -> F.t * F.t)
    (float_repr : F.t -> string)
    (later_pages : DocTemplate -> list Flowable -> nat)
    (engine_error : DocTemplate -> list Flowable -> option exn)
    (self : W.t) (canvas : Canvas) (doc : DocTemplate) :
  Spec.ready self ->
  Spec.accepted markup_error (Spec.footer_lines (W.lawfirm self)) ->
  let firm := W.lawfirm self in
  let footer_style := Spec.resolve CENTER BASE 9 in
  let line1 :=
    Paragraph
      (LawFirm.adress firm +:+ " " +:+ LawFirm.zip_code firm +:+ " "
       +:+ LawFirm.city firm)
      footer_style in
  let line2 :=
    Paragraph
      ("Tel : " +:+ LawFirm.phone firm +:+ " - Mail : " +:+ LawFirm.mail firm
       +:+ " - Site : " +:+ LawFirm.website firm)
      footer_style in
  let line3 :=
    Paragraph
      ("TVA Intracommunautaire : " +:+ LawFirm.vat_number firm
       +:+ " - SIRET : " +:+ LawFirm.siret_number firm)
      footer_style in
  let footer (doc : DocTemplate) :=
    let height p := snd (wrap p (width doc) (bottomMargin doc)) in
    let y0 := F.div_int (bottomMargin doc) 2 in
    [ saveState;
      drawOn line1 (leftMargin doc)
        (F.add y0 (F.mul (height line1) (F.lit 1.5)));
      drawOn line2 (leftMargin doc)
        (F.add y0 (F.mul (height line1) (F.lit 0.5)));
      drawOn line3 (leftMargin doc)
        (F.sub y0 (F.mul (height line2) (F.lit 0.5)));
      restoreState ] in
  W._draw_footer markup_error wrap canvas doc self
  = Ok (canvas ++ footer doc, self)
  /\ forall now month_name,
       let blocks :=
         W.contents self ++ Spec.built_story float_repr now month_name self in
       MONTH_TO_FRENCH !! datetime.month now = Some month_name ->
       Fees.times (W.fees self) <> [] ->
       Spec.accepted markup_error
         (Spec.paragraphs (Spec.built_story float_repr now month_name self)) ->
       engine_error (W.doc self) blocks = None ->
       exists b self',
         W.build markup_error empty_table_message wrap float_repr later_pages
           engine_error now self
         = Ok (b, self')
         /\ W.onFirstPage b = W._draw_footer markup_error wrap
         /\ W.onLaterPages b = W._draw_footer markup_error wrap
         /\ W.pages b <> []
         /\ Forall (fun page => page = footer (W.doc self)) (W.pages b).
Proof.
  intros Hr Ha firm footer_style line1 line2 line3 footer. split.
  - exact (Run.draw_footer_ok markup_error wrap self canvas doc Hr Ha).
  - intros now month_name blocks Hm Hne Hs He.
    do 2 eexists. split.
    + exact (Run.build_ok markup_error empty_table_message wrap float_repr
               later_pages engine_error now month_name self Hr Hm Hne Hs Ha
               He).
    + cbn [W.onFirstPage W.onLaterPages W.pages].
      split; [reflexivity |]. split; [reflexivity |].
      split; [discriminate |].
      apply Forall_forall. intros page Hin.
      apply elem_of_replicate in Hin. destruct Hin as [-> _]. reflexivity.
Qed.

Lemma footer_lines_placement_witness :
  let footer :=
    [ saveState;
      drawOn
        (Paragraph "123 Rue de la Paix 75000 Paris"
           (Spec.resolve CENTER BASE 9))
        (F.lit 72) (F.lit 52.2);
      drawOn
        (Paragraph
           "Tel : 01.23.45.67.89 - Mail : cabinet.avocate@gmail.com - Site : cabinet-avocat.fr"
           (Spec.resolve CENTER BASE 9))
        (F.lit 72) (F.lit 41.4);
      drawOn
        (Paragraph
           "TVA Intracommunautaire : FR1234567890 - SIRET : 1234567890"
           (Spec.resolve CENTER BASE 9))
        (F.lit 72) (F.lit 30.6);
      restoreState ] in
  W._draw_footer Main.markup_error Main.wrap [] (W.doc Main.writer)
    Main.writer
  = Ok (footer, Main.writer)
  /\ exists b self',
       W.build Main.markup_error Main.empty_table_message Main.wrap
         Main.float_repr Main.later_pages Main.engine_error Main.now
         Main.writer
       = Ok (b, self')
       /\ W.onFirstPage b = W._draw_footer Main.markup_error Main.wrap
       /\ W.onLaterPages b = W._draw_footer Main.markup_error Main.wrap
       /\ W.pages b <> []
       /\ Forall (fun page => page = footer) (W.pages b).
Proof.
  destruct (footer_lines_placement Main.markup_error Main.empty_table_message
              Main.wrap Main.float_repr Main.later_pages Main.engine_error
              Main.writer [] (W.doc Main.writer) eq_refl)
    as [Hdraw Hbuild].
  - vm_compute. reflexivity.
  - split; [exact Hdraw |].
    apply (Hbuild Main.now "juin").
    + reflexivity.
    + discriminate.
    + vm_compute. reflexivity.
    + reflexivity.
Defined.

(** * Further properties of the program *)

(** ** The month table *)

(** X1. [MONTH_TO_FRENCH] has a name for a month number exactly when the
    number is one of 1..12, and two different months never share a name:
    the lookup of [place_and_date] cannot miss on a calendar date, and
    the name on the invoice tells the month. *)
Theorem month_table_total_and_injective :
  (forall m : Z, is_Some (MONTH_TO_FRENCH !! m) <-> 1 <= m <= 12)
  /\ (forall (m1 m2 : Z) (name : string),
        MONTH_TO_FRENCH !! m1 = Some name ->
        MONTH_TO_FRENCH !! m2 = Some name -> m1 = m2).
Proof.
  assert (Hin : forall (m : Z) (name : string),
             MONTH_TO_FRENCH !! m = Some name ->
             (m, name)
             ∈ [ (1, "janvier"); (2, "février"); (3, "mars"); (4, "avril");
                 (5, "mai"); (6, "juin"); (7, "juillet"); (8, "août");
                 (9, "septembre"); (10, "octobre"); (11, "novembre");
                 (12, "décembre") ]).
  { intros m name H. unfold MONTH_TO_FRENCH in H.
    now apply elem_of_list_to_map_2 in H. }
  split.
  - intros m. split.
    + intros [name H]. apply Hin in H. set_unfold in H.
      repeat (destruct H as [H | H]; [injection H; intros; lia |]).
      destruct H.
    + apply month_has_name.
  - intros m1 m2 name H1 H2. apply Hin in H1, H2.
    set_unfold in H1. set_unfold in H2.
    repeat (destruct H1 as [H1 | H1];
            [ injection H1 as -> ->;
              repeat (destruct H2 as [H2 | H2];
                      [first [discriminate H2 | now injection H2] |]);
              destruct H2 |]).
    destruct H1.
Qed.

(** ** Style names *)

(** X12. The name the resolver gives a style tells the alignment and
    the emphasis, and nothing else: two requests get the same name
    exactly when they agree on both, whatever the sizes, and they get
    the same descriptor exactly when they agree on the size as well.  A
    name alone therefore does not identify a descriptor: the caption of
    the title (size 16) and the footer (size 9) are both [center_base]. *)
Theorem style_name_tells_alignment_and_emphasis
    (self : W.t) (a a' : Alignment) (e e' : FontStyle) (z z' : Q) :
  Spec.ready self ->
  exists d d',
    W.style a e z self = Ok (d, self)
    /\ W.style a' e' z' self = Ok (d', self)
    /\ (style_name d = style_name d' <-> a = a' /\ e = e')
    /\ (d = d' <-> a = a' /\ e = e' /\ z = z').
Proof.
  intros Hr. exists (Spec.resolve a e z), (Spec.resolve a' e' z').
  split; [exact (Run.style_ok a e z self Hr) |].
  split; [exact (Run.style_ok a' e' z' self Hr) |].
  assert (Hname : style_name (Spec.resolve a e z)
                  = style_name (Spec.resolve a' e' z') ->
                  a = a' /\ e = e').
  { destruct a, a', e, e'; intros H; try discriminate H; split; reflexivity. }
  split; split.
  - exact Hname.
  - intros [-> ->]. reflexivity.
  - intros H. destruct (Hname (f_equal style_name H)) as [-> ->].
    split; [reflexivity |]. split; [reflexivity |].
    exact (f_equal fontSize H).
  - intros (-> & -> & ->). reflexivity.
Qed.

Lemma style_name_tells_alignment_and_emphasis_witness :
  exists d d',
    W.style CENTER BASE 16 Main.writer = Ok (d, Main.writer)
    /\ W.style CENTER BASE 9 Main.writer = Ok (d', Main.writer)
    /\ (style_name d = style_name d' <-> CENTER = CENTER /\ BASE = BASE)
    /\ (d = d' <-> CENTER = CENTER /\ BASE = BASE /\ 16%Q = 9%Q).
Proof.
  exact (style_name_tells_alignment_and_emphasis Main.writer CENTER CENTER
           BASE BASE 16 9 eq_refl).
Defined.

(** ** Collaborators *)

(** X8. [collaborator_title] does not look at whether the list is empty:
    for every list whose lines the parser accepts it appends the heading,
    one left-aligned line per name in the order of the list, and a
    caption, [length names + 2] paragraphs in all.  The caption is plural
    exactly for two names or more, so an empty list gets the heading and
    the singular caption; it is [build] that skips the call for an empty
    list. *)
Theorem collaborator_title_on_any_list
    (markup_error : string -> ParagraphStyle -> option string)
    (self : W.t) (names : list string) :
  Spec.ready self ->
  let caption :=
    if decide (2 <= length names)%nat
    then "Avocates à la Cour" else "Avocate à la Cour" in
  let added :=
    Para (Paragraph "En collaboration avec :" (Spec.resolve LEFT ITALIC 12))
    :: map (fun name => Para (Paragraph name (Spec.resolve LEFT BASE 12)))
         names
    ++ [Para (Paragraph caption (Spec.resolve LEFT BASE 12))] in
  Spec.accepted markup_error (Spec.paragraphs added) ->
  W.collaborator_title markup_error names self
  = Ok (tt, W.set_contents self (W.contents self ++ added))
  /\ length added = (length names + 2)%nat.
Proof.
  intros Hr caption added Ha.
  assert (Hc : caption
               = "Avocate"
                 +:+ (if 1 <? Z.of_nat (length names) then "s" else "")
                 +:+ " à la Cour").
  { subst caption. case_decide as H.
    - replace (1 <? Z.of_nat (length names)) with true; [reflexivity |].
      symmetry. apply Z.ltb_lt. lia.
    - replace (1 <? Z.of_nat (length names)) with false; [reflexivity |].
      symmetry. apply Z.ltb_ge. lia. }
  split.
  - subst added. rewrite Hc in *.
    exact (Run.collaborator_title_appends markup_error names self Hr Ha).
  - subst added. cbn [length]. rewrite length_app, length_map.
    cbn [length]. lia.
Qed.

Lemma collaborator_title_on_any_list_witness :
  W.collaborator_title Main.markup_error [] Main.writer
  = Ok (tt, W.set_contents Main.writer
              [ Para (Paragraph "En collaboration avec :"
                        (Spec.resolve LEFT ITALIC 12));
                Para (Paragraph "Avocate à la Cour"
                        (Spec.resolve LEFT BASE 12)) ])
  /\ 2%nat = 2%nat.
Proof.
  apply (collaborator_title_on_any_list Main.markup_error Main.writer []
           eq_refl).
  vm_compute. reflexivity.
Defined.

(** ** The whole story *)

(** X9. A build that reaches the page engine hands it what
    [self.contents] held before, unchanged, and after it the blocks in
    the fixed order of the template, each followed by its spacer: title,
    collaborators (when there are some), client address, place and date,
    invoice number, fee detail, closing sentences.  That is 26 flowables,
    and [length names + 3] more when there are collaborators.  The engine
    empties the list it is handed: after the build [self.contents] is
    empty and nothing else of the writer has changed.  The message
    printed at the end names the output path.  (A build reaches the page
    engine when the schedule has an entry and the parser accepts the
    texts, and it returns when the engine does not fail.) *)
Theorem build_story_in_template_order
    (markup_error : string -> ParagraphStyle -> option string)
    (empty_table_message : string)
    (wrap : Paragraph_t -> F.t -> F.t -> F.t * F.t)
    (float_repr : F.t -> string)
    (later_pages : DocTemplate -> list Flowable -> nat)
    (engine_error : DocTemplate -> list Flowable -> option exn)
    (self : W.t) (now : datetime.t) (month_name : string) :
  Spec.ready self ->
  MONTH_TO_FRENCH !! datetime.month now = Some month_name ->
  Fees.times (W.fees self) <> [] ->
  Spec.accepted markup_error
    (Spec.paragraphs (Spec.built_story float_repr now month_name self)) ->
  Spec.accepted markup_error (Spec.footer_lines (W.lawfirm self)) ->
  engine_error (W.doc self)
    (W.contents self ++ Spec.built_story float_repr now month_name self)
  = None ->
  let names := LawFirm.collaborators (W.lawfirm self) in
  exists b title caption,
    W.build markup_error empty_table_message wrap float_repr later_pages
      engine_error now self
    = Ok (b, W.set_contents self [])
    /\ W.story b
       = W.contents self
         ++ Spec.title_blocks (LawFirm.principal_lawyer (W.lawfirm self))
         ++ [Spec.gap (F.lit 1.5)]
         ++ match names with
            | [] => []
            | _ :: _ =>
                Spec.collaborators_block names caption
                ++ [Spec.gap (F.of_int 1)]
            end
         ++ Spec.client_block title (W.client self)
         ++ [Spec.gap (F.of_int 3)]
         ++ [Spec.place_and_date_line "Paris" (datetime.day now) month_name
               (datetime.year now)]
         ++ [Spec.gap (F.lit 0.5)]
         ++ [Spec.invoice_number_box "2025-121"]
         ++ [Spec.gap (F.of_int 2)]
         ++ Spec.fee_detail_blocks (float_repr (Fees.price (W.fees self)))
              (W.fees self)
         ++ [Spec.gap (F.of_int 2)]
         ++ Spec.closing_blocks
    /\ length (W.story b)
       = (length (W.contents self) + 26
          + match names with [] => 0 | _ :: _ => length names + 3 end)%nat
    /\ W.stdout b
       = "ReportLab PDF '" +:+ W.output_path self
         +:+ "' generated successfully.".
Proof.
  intros Hr Hm Hne Ha Hf He names.
  pose proof (Run.build_ok markup_error empty_table_message wrap float_repr
                later_pages engine_error now month_name self Hr Hm Hne Ha Hf
                He) as Hb.
  do 3 eexists.
  split; [exact Hb |]. cbn [W.story W.stdout].
  split; [reflexivity |]. split; [| reflexivity].
  unfold Spec.built_story, Spec.after_collaborators. fold names.
  rewrite !length_app.
  cbn [length Spec.title_blocks Spec.client_block Spec.fee_detail_blocks
         Spec.fee_heading_blocks Spec.closing_blocks app].
  destruct names as [| a names'].
  - cbn [length]. lia.
  - unfold Spec.collaborators_block.
    rewrite length_app. cbn [length]. rewrite length_app, length_map.
    cbn [length]. lia.
Qed.

Lemma build_story_in_template_order_witness :
  let names := ["Gerard LOULOU"; "Francesca MARTINI"] in
  exists b title caption,
    W.build Main.markup_error Main.empty_table_message Main.wrap
      Main.float_repr Main.later_pages Main.engine_error Main.now Main.writer
    = Ok (b, W.set_contents Main.writer [])
    /\ W.story b
       = Spec.title_blocks "Jean-Pierre Machin"
         ++ [Spec.gap (F.lit 1.5)]
         ++ (Spec.collaborators_block names caption
             ++ [Spec.gap (F.of_int 1)])
         ++ Spec.client_block title Main.client
         ++ [Spec.gap (F.of_int 3)]
         ++ [Spec.place_and_date_line "Paris" 1 "juin" 2025]
         ++ [Spec.gap (F.lit 0.5)]
         ++ [Spec.invoice_number_box "2025-121"]
         ++ [Spec.gap (F.of_int 2)]
         ++ Spec.fee_detail_blocks (Main.float_repr (F.of_int 300)) Main.fees
         ++ [Spec.gap (F.of_int 2)]
         ++ Spec.closing_blocks
    /\ length (W.story b) = 31%nat
    /\ W.stdout b = "ReportLab PDF 'invoice.pdf' generated successfully.".
Proof.
  apply (build_story_in_template_order Main.markup_error
           Main.empty_table_message Main.wrap Main.float_repr
           Main.later_pages Main.engine_error Main.writer Main.now "juin"
           eq_refl).
  - reflexivity.
  - discriminate.
  - vm_compute. reflexivity.
  - vm_compute. reflexivity.
  - reflexivity.
Defined.

(** ** Rows and entries *)

(** X14. The fee table follows the schedule: one row per entry, in the
    order of the entries, none dropped or repeated; the row of an entry
    starts with an empty cell and carries, in its second cell, the
    description of the entry and its date between parentheses, day and
    month on two digits and the year as it is.  The table is the one
    appended when there is an entry and the parser accepts the texts. *)
Theorem fee_table_rows_follow_entries
    (markup_error : string -> ParagraphStyle -> option string)
    (empty_table_message : string) (self : W.t) :
  Spec.ready self ->
  Fees.times (W.fees self) <> [] ->
  Spec.accepted markup_error (Spec.paragraphs [Spec.fee_table (W.fees self)]) ->
  exists rows widths heights ts,
    W.list_fee_table markup_error empty_table_message self
    = Ok (tt, W.set_contents self
                (W.contents self ++ [Table rows widths heights ts]))
    /\ Forall2
         (fun row time =>
            exists duration_cell price_cell,
              row
              = [ Paragraph "" (Spec.resolve LEFT BASE 12);
                  Paragraph
                    (Time.description time +:+ " ("
                     +:+ (zfill 2 (pretty (date.day (Time.date time)))
                          +:+ "/"
                          +:+ zfill 2 (pretty (date.month (Time.date time)))
                          +:+ "/"
                          +:+ pretty (date.year (Time.date time)))
                     +:+ ")")
                    (Spec.resolve LEFT BOLD 12);
                  duration_cell; price_cell ])
         rows (Fees.times (W.fees self)).
Proof.
  intros Hr Hne Ha. do 4 eexists.
  split; [exact (Run.list_fee_table_appends markup_error empty_table_message
                   self Hr Hne Ha) |].
  unfold Spec.fee_rows.
  apply Forall2_fmap_l, Forall_Forall2_diag, Forall_forall.
  intros time _. do 2 eexists. reflexivity.
Qed.

Lemma fee_table_rows_follow_entries_witness :
  exists rows widths heights ts,
    W.list_fee_table Main.markup_error Main.empty_table_message Main.writer
    = Ok (tt, W.set_contents Main.writer [Table rows widths heights ts])
    /\ Forall2
         (fun row time =>
            exists duration_cell price_cell,
              row
              = [ Paragraph "" (Spec.resolve LEFT BASE 12);
                  Paragraph
                    (Time.description time +:+ " ("
                     +:+ (zfill 2 (pretty (date.day (Time.date time)))
                          +:+ "/"
                          +:+ zfill 2 (pretty (date.month (Time.date time)))
                          +:+ "/"
                          +:+ pretty (date.year (Time.date time)))
                     +:+ ")")
                    (Spec.resolve LEFT BOLD 12);
                  duration_cell; price_cell ])
         rows (Fees.times Main.fees).
Proof.
  apply (fee_table_rows_follow_entries Main.markup_error
           Main.empty_table_message Main.writer eq_refl).
  - discriminate.
  - vm_compute. reflexivity.
Defined.
